(** * Terraform Cloud secret-backend role and identity entity-alias resources

    A shallow embedding of [vault/resource_terraform_cloud_secret_backend_role.go]
    (the role resource) and of the identity entity-alias resource that
    follows it in the same source file, together with the properties the
    specification states about them. *)

From Stdlib Require Import String Ascii List Bool Arith ZArith Lia DecimalString.
From stdpp Require Import base option gmap strings.
Import ListNotations.

Local Open Scope list_scope.
Local Open Scope string_scope.

(** ** Go values

    The handlers pass [interface{}] values around: strings, ints,
    [map[string]interface{}] and [[]interface{}]. *)

#[warnings="-register-all"]
Inductive value : Type :=
| VNil
| VStr (s : string)
| VInt (z : Z)
| VMap (m : gmap string value)
| VList (l : list value).

(** [m[k]] on a [map[string]interface{}]: a missing key reads as [nil]. *)
Definition mapIndex (m : gmap string value) (k : string) : value :=
  match m !! k with
  | Some v => v
  | None => VNil
  end.

(** The type assertions [v.(string)], [v.([]interface{})] and
    [v.(map[string]interface{})]; [None] is the run-time panic of the
    single-result form. *)
Definition assertString (v : value) : option string :=
  match v with VStr s => Some s | _ => None end.

Definition assertSlice (v : value) : option (list value) :=
  match v with VList l => Some l | _ => None end.

Definition assertMap (v : value) : option (gmap string value) :=
  match v with VMap m => Some m | _ => None end.

(** [v == s] for an interface value [v] and a string [s]: true exactly when
    the dynamic type of [v] is string and the contents agree. *)
Definition eqString (v : value) (s : string) : bool :=
  match v with
  | VStr s' => String.eqb s' s
  | _ => false
  end.

(** ** Go library functions used by the handlers

    Strings are byte strings.  An [error] is modelled by its text, a nilable
    [error] by [option string]. *)

Definition error := string.

(** [strings.Trim(s, cutset)] for an ASCII [cutset]: every leading and
    trailing byte that occurs in [cutset] is removed. *)
Fixpoint inCutset (c : ascii) (cutset : string) : bool :=
  match cutset with
  | EmptyString => false
  | String c' rest => Ascii.eqb c c' || inCutset c rest
  end.

Fixpoint TrimLeft (s cutset : string) : string :=
  match s with
  | EmptyString => EmptyString
  | String c s' => if inCutset c cutset then TrimLeft s' cutset else s
  end.

Fixpoint TrimRight (s cutset : string) : string :=
  match s with
  | EmptyString => EmptyString
  | String c s' =>
      match TrimRight s' cutset with
      | EmptyString => if inCutset c cutset then EmptyString else String c EmptyString
      | t => String c t
      end
  end.

Definition Trim (s cutset : string) : string :=
  TrimRight (TrimLeft s cutset) cutset.

(** [%q] of a string ([strconv.Quote]).  Bytes below 0x80 are rendered as Go
    renders them.  A byte from 0x80 on is rendered as a [\x] escape, which is
    what Go does for a byte that is not part of a valid UTF-8 sequence; no
    property below depends on how such bytes are rendered. *)
Definition hexDigit (n : nat) : ascii :=
  match String.get n "0123456789abcdef" with
  | Some c => c
  | None => "0"%char
  end.

Definition quoteByte (c : ascii) : string :=
  let n := nat_of_ascii c in
  if Nat.eqb n 34 || Nat.eqb n 92 then String "\"%char (String c EmptyString)
  else if Nat.leb 32 n && Nat.ltb n 127 then String c EmptyString
  else if Nat.eqb n 7 then "\a"
  else if Nat.eqb n 8 then "\b"
  else if Nat.eqb n 12 then "\f"
  else if Nat.eqb n 10 then "\n"
  else if Nat.eqb n 13 then "\r"
  else if Nat.eqb n 9 then "\t"
  else if Nat.eqb n 11 then "\v"
  else String "\"%char (String "x"%char
         (String (hexDigit (n / 16)) (String (hexDigit (n mod 16)) EmptyString))).

Fixpoint quoteBody (s : string) : string :=
  match s with
  | EmptyString => EmptyString
  | String c s' => quoteByte c ++ quoteBody s'
  end.

Definition dquote : string := String (ascii_of_nat 34) EmptyString.

Definition quote (s : string) : string := dquote ++ quoteBody s ++ dquote.

(** [%d] of a non-negative int. *)
Definition itoa (n : nat) : string := NilZero.string_of_uint (Nat.to_uint n).

(** ** Regular expressions

    The two patterns of the role resource use only: begin of text, end of
    text, a literal, a greedy [.+] (Go's [.] leaves out the newline), one
    capture group and concatenation.  The matcher follows Go's leftmost-first
    rule: at each start position the alternatives of a greedy repetition are
    tried from the longest to the shortest, and the first complete match
    wins.  Working on bytes is exact for these patterns, because the only
    literal is ASCII and [.] takes every byte other than the newline, whether
    or not it is part of a well-formed UTF-8 sequence. *)

Inductive Regexp : Type :=
| BeginText                       (* ^ *)
| EndText                         (* $ *)
| Literal (s : string)
| PlusAnyCharNotNL                (* .+ *)
| Capture (r : Regexp)            (* ( r ) *)
| Concat (r1 r2 : Regexp).

Definition newline : ascii := ascii_of_nat 10.

Fixpoint stripPrefix (l s : string) : option string :=
  match l with
  | EmptyString => Some s
  | String a l' =>
      match s with
      | EmptyString => None
      | String b s' => if Ascii.eqb a b then stripPrefix l' s' else None
      end
  end.

(** The first [n] bytes of [s]. *)
Fixpoint take (n : nat) (s : string) : string :=
  match n, s with
  | S n', String c s' => String c (take n' s')
  | _, _ => EmptyString
  end.

Section Matcher.
Context {R : Type}.

(** A continuation receives the position reached, the input that is left
    and the groups closed so far. *)
Definition cont := nat -> string -> list string -> option R.

Fixpoint plusAny (rest : string) (pos : nat) (k : nat -> string -> option R)
  : option R :=
  match rest with
  | EmptyString => None
  | String c rest' =>
      if Ascii.eqb c newline then None
      else match plusAny rest' (S pos) k with
           | Some r => Some r
           | None => k (S pos) rest'
           end
  end.

Fixpoint rmatch (re : Regexp) (pos : nat) (rest : string)
    (caps : list string) (k : cont) : option R :=
  match re with
  | BeginText => if Nat.eqb pos 0 then k pos rest caps else None
  | EndText =>
      match rest with
      | EmptyString => k pos rest caps
      | String _ _ => None
      end
  | Literal l =>
      match stripPrefix l rest with
      | Some rest' => k (pos + String.length l) rest' caps
      | None => None
      end
  | PlusAnyCharNotNL => plusAny rest pos (fun p r => k p r caps)
  | Capture r =>
      rmatch r pos rest caps
        (fun p r' caps' => k p r' (caps' ++ [take (p - pos) rest])%list)
  | Concat r1 r2 =>
      rmatch r1 pos rest caps (fun p r' caps' => rmatch r2 p r' caps' k)
  end.
End Matcher.

(** The search of [FindStringSubmatch]: the leftmost start position at which
    the pattern matches; the result is the whole match followed by the
    groups. *)
Fixpoint findFrom (re : Regexp) (pos : nat) (rest : string)
  : option (list string) :=
  match rmatch re pos rest [] (fun p _ caps => Some (take (p - pos) rest :: caps)) with
  | Some m => Some m
  | None =>
      match rest with
      | EmptyString => None
      | String _ rest' => findFrom re (S pos) rest'
      end
  end.

(** A [nil] slice is the empty list. *)
Definition FindStringSubmatch (re : Regexp) (s : string) : list string :=
  match findFrom re 0 s with
  | Some m => m
  | None => []
  end.

Definition MatchString (re : Regexp) (s : string) : bool :=
  match findFrom re 0 s with
  | Some _ => true
  | None => false
  end.

(** ** Role paths *)

(** [regexp.MustCompile("^(.+)/role/.+$")] *)
Definition terraformCloudSecretBackendRoleBackendFromPathRegex : Regexp :=
  Concat BeginText
    (Concat (Capture PlusAnyCharNotNL)
       (Concat (Literal "/role/") (Concat PlusAnyCharNotNL EndText))).

(** [regexp.MustCompile("^.+/role/(.+$)")] *)
Definition terraformCloudSecretBackendRoleNameFromPathRegex : Regexp :=
  Concat BeginText
    (Concat PlusAnyCharNotNL
       (Concat (Literal "/role/") (Capture (Concat PlusAnyCharNotNL EndText)))).

Definition terraformCloudSecretBackendRolePath (backend name : string) : string :=
  Trim backend "/" ++ "/role/" ++ name.

Definition terraformCloudSecretBackendRoleNameFromPath (path : string)
  : string * option error :=
  if negb (MatchString terraformCloudSecretBackendRoleNameFromPathRegex path)
  then (EmptyString, Some "no name found")
  else
    let res := FindStringSubmatch terraformCloudSecretBackendRoleNameFromPathRegex path in
    match res with
    | [_; name] => (name, None)
    | _ => (EmptyString, Some ("unexpected number of matches (" ++ itoa (List.length res)
                        ++ ") for name"))
    end.

Definition terraformCloudSecretBackendRoleBackendFromPath (path : string)
  : string * option error :=
  if negb (MatchString terraformCloudSecretBackendRoleBackendFromPathRegex path)
  then (EmptyString, Some "no backend found")
  else
    let res := FindStringSubmatch terraformCloudSecretBackendRoleBackendFromPathRegex path in
    match res with
    | [_; backend] => (backend, None)
    | _ => (EmptyString, Some ("unexpected number of matches (" ++ itoa (List.length res)
                        ++ ") for backend"))
    end.

(** ** The resource data of the plugin SDK

    [schema.ResourceData] is the SDK's view of one resource instance.  The
    model keeps what the handlers use: the schema, the id, and the
    attributes that the SDK reports as set (a key is in [fields] exactly
    when the SDK's reader finds the attribute, whether it comes from the
    configuration, a default or the stored state). *)

Inductive ValueType : Type := TypeString | TypeInt | TypeMap.

Record Schema : Type := {
  Type_ : ValueType;
  Required : bool;
  Optional : bool;
  ForceNew : bool;
  ConflictsWith : list string;
  Default : option value
}.

Record ResourceData : Type := {
  schema : list (string * Schema);
  Id : string;
  fields : gmap string value
}.

Fixpoint lookupSchema (sch : list (string * Schema)) (key : string) : option Schema :=
  match sch with
  | [] => None
  | (k, s) :: rest => if String.eqb k key then Some s else lookupSchema rest key
  end.

Definition zero (t : ValueType) : value :=
  match t with
  | TypeString => VStr EmptyString
  | TypeInt => VInt 0
  | TypeMap => VMap ∅
  end.

Definition isZero (v : value) : bool :=
  match v with
  | VNil => true
  | VStr s => String.eqb s EmptyString
  | VInt z => Z.eqb z 0
  | VMap m => match map_to_list m with [] => true | _ => false end
  | VList l => match l with [] => true | _ => false end
  end.

Definition zeroOf (d : ResourceData) (key : string) : value :=
  match lookupSchema (schema d) key with
  | Some s => zero (Type_ s)
  | None => VNil
  end.

(** [d.Get(key)]: the attribute, or the zero value of its type. *)
Definition Get (d : ResourceData) (key : string) : value :=
  match fields d !! key with
  | Some v => v
  | None => zeroOf d key
  end.

(** [d.GetOk(key)]: the flag says that the attribute is set and is not the
    zero value of its type. *)
Definition GetOk (d : ResourceData) (key : string) : value * bool :=
  match fields d !! key with
  | Some v => (v, negb (isZero v))
  | None => (zeroOf d key, false)
  end.

(** [d.GetOkExists(key)]: the flag says that the attribute is set; the value
    is not compared with the zero value. *)
Definition GetOkExists (d : ResourceData) (key : string) : value * bool :=
  match fields d !! key with
  | Some v => (v, true)
  | None => (zeroOf d key, false)
  end.

Definition SetId (d : ResourceData) (id : string) : ResourceData :=
  {| schema := schema d; Id := id; fields := fields d |}.

(** Go's [int] has 64 bits. *)
Definition inInt (z : Z) : bool :=
  Z.leb (- 2 ^ 63) z && Z.ltb z (2 ^ 63).

Definition hasType (t : ValueType) (v : value) : bool :=
  match t, v with
  | TypeString, VStr _ => true
  | TypeInt, VInt z => inInt z
  | TypeMap, VMap _ => true
  | _, _ => false
  end.

(** The decimal digits of a number. *)
Definition formatInt (z : Z) : string := NilZero.string_of_int (Z.to_int z).

(** What [d.Set] stores for a value: a value of the attribute's type as it
    is (an integer only if it fits an [int]), and a number given for a string
    attribute as its digits. *)
Definition stored (t : ValueType) (v : value) : option value :=
  match t, v with
  | TypeString, VInt z => Some (VStr (formatInt z))
  | _, _ => if hasType t v then Some v else None
  end.

(** [d.Set(key, value)]: [nil] stores the zero value; a value that the
    attribute can take is stored; anything else, and a key that the schema
    does not have, is an error and leaves the data as it was.  (The text of
    the SDK's errors and its check of the elements of a map are left out.) *)
Definition Set_ (d : ResourceData) (key : string) (v : value)
  : ResourceData * option error :=
  match lookupSchema (schema d) key with
  | None => (d, Some ("Invalid address to set: " ++ key))
  | Some s =>
      let store w := {| schema := schema d; Id := Id d;
                        fields := <[key := w]> (fields d) |} in
      match v with
      | VNil => (store (zero (Type_ s)), None)
      | _ => match stored (Type_ s) v with
             | Some w => (store w, None)
             | None => (d, Some (key ++ ": unexpected type"))
             end
      end
  end.

(** ** The API client

    [client.Logical()] offers [Read], [Write] and [Delete] on a path; each
    returns a secret pointer and an [error].  A handler is a tree of such
    calls: it either returns, or panics, or issues a request and goes on with
    the response. *)

Record Secret : Type := { Data : gmap string value }.

Definition response : Type := option Secret * option error.

Inductive request : Type :=
| Read (path : string)
| Write (path : string) (data : gmap string value)
| Delete (path : string).

Inductive io (A : Type) : Type :=
| Ret (a : A)
| Panic
| Call (r : request) (k : response -> io A).

Arguments Ret {A} a.
Arguments Panic {A}.
Arguments Call {A} r k.

(** Handlers also read and update the resource data they were given. *)
Definition M (A : Type) : Type := ResourceData -> io (A * ResourceData).

Fixpoint ioBind {A B} (p : io A) (f : A -> io B) : io B :=
  match p with
  | Ret a => f a
  | Panic => Panic
  | Call r k => Call r (fun resp => ioBind (k resp) f)
  end.

Definition ret {A} (a : A) : M A := fun d => Ret (a, d).

Definition bind {A B} (m : M A) (f : A -> M B) : M B :=
  fun d => ioBind (m d) (fun '(a, d') => f a d').

Definition panic {A} : M A := fun _ => Panic.

Definition call (r : request) : M response :=
  fun d => Call r (fun resp => Ret (resp, d)).

(** A type assertion whose failure panics. *)
Definition orPanic {A} (o : option A) : M A :=
  match o with
  | Some a => ret a
  | None => panic
  end.

Definition dId : M string := fun d => Ret (Id d, d).
Definition dSetId (id : string) : M unit := fun d => Ret (tt, SetId d id).
Definition dGet (key : string) : M value := fun d => Ret (Get d key, d).
Definition dGetOk (key : string) : M (value * bool) := fun d => Ret (GetOk d key, d).
Definition dGetOkExists (key : string) : M (value * bool) :=
  fun d => Ret (GetOkExists d key, d).
Definition dSet (key : string) (v : value) : M (option error) :=
  fun d => let '(d', e) := Set_ d key v in Ret (e, d').

Declare Scope handler_scope.
Delimit Scope handler_scope with handler.

Notation "'let*' p := m 'in' k" := (bind m (fun p => k))
  (at level 10, p pattern, m at level 100, k at level 200,
   only parsing) : handler_scope.

Local Open Scope handler_scope.

(** [log.Printf] only writes to the log and is left out of the handlers. *)

(** ** The role resource *)

Definition attr (t : ValueType) (required optional forceNew : bool)
    (conflicts : list string) (default : option value) : Schema :=
  {| Type_ := t; Required := required; Optional := optional;
     ForceNew := forceNew; ConflictsWith := conflicts; Default := default |}.

(** The [Schema] of [terraformCloudSecretBackendRoleResource]. *)
Definition terraformCloudSecretBackendRoleSchema : list (string * Schema) :=
  [ ("name", attr TypeString true false true [] None);
    ("path", attr TypeString false true false ["backend"] None);
    ("backend", attr TypeString false true true ["path"] None);
    ("organization", attr TypeString true false false [] None);
    ("team_id", attr TypeString false true false [] None);
    ("user_id", attr TypeString false true false [] None);
    ("max_ttl", attr TypeInt false true false [] (Some (VInt 0)));
    ("ttl", attr TypeInt false true false [] (Some (VInt 0))) ].

Definition terraformCloudSecretBackendRoleGetBackend : M string :=
  let* (v, ok) := dGetOk "backend" in
  if ok then orPanic (assertString v)
  else
    let* (v, ok) := dGetOk "path" in
    if ok then orPanic (assertString v)
    else ret EmptyString.

Definition terraformCloudSecretBackendRoleRead : M (option error) :=
  let* path := dId in
  let (name, err) := terraformCloudSecretBackendRoleNameFromPath path in
  match err with
  | Some e =>
      let* _ := dSetId EmptyString in
      ret (Some ("invalid role ID " ++ quote path ++ ": " ++ e))
  | None =>
  let (backend, err) := terraformCloudSecretBackendRoleBackendFromPath path in
  match err with
  | Some e =>
      let* _ := dSetId EmptyString in
      ret (Some ("invalid role ID " ++ quote path ++ ": " ++ e))
  | None =>
  let* (secret, err) := call (Read path) in
  match err with
  | Some e =>
      ret (Some ("error reading role configuration for " ++ quote path ++ ": " ++ e))
  | None =>
  match secret with
  | None => ret (Some "resource not found")
  | Some secret =>
      let data := Data secret in
      let* _ := dSet "name" (VStr name) in
      let* (_, ok) := dGetOk "path" in
      let* _ := (if ok then dSet "path" (VStr backend)
                 else dSet "backend" (VStr backend)) in
      let* _ := dSet "organization" (mapIndex data "organization") in
      let* _ := dSet "team_id" (mapIndex data "team_id") in
      let* _ := dSet "user_id" (mapIndex data "user_id") in
      let* _ := dSet "max_ttl" (mapIndex data "max_ttl") in
      let* _ := dSet "ttl" (mapIndex data "ttl") in
      ret None
  end end end end.

(** [if v, ok := d.GetOkExists(key); ok { payload[key] = v }] *)
Definition putIfExists (key : string) (payload : gmap string value)
  : M (gmap string value) :=
  let* (v, ok) := dGetOkExists key in
  if ok then ret (<[key := v]> payload) else ret payload.

Definition terraformCloudSecretBackendRoleWrite : M (option error) :=
  let* v := dGet "name" in
  let* name := orPanic (assertString v) in
  let* backend := terraformCloudSecretBackendRoleGetBackend in
  if String.eqb backend EmptyString then
    ret (Some ("No backend specified for Terraform Cloud secret backend role " ++ name))
  else
    let path := terraformCloudSecretBackendRolePath backend name in
    let payload : gmap string value := ∅ in
    let* payload := putIfExists "max_ttl" payload in
    let* payload := putIfExists "ttl" payload in
    let* payload := putIfExists "organization" payload in
    let* payload := putIfExists "team_id" payload in
    let* payload := putIfExists "user_id" payload in
    let* (_, err) := call (Write path payload) in
    match err with
    | Some e =>
        ret (Some ("error writing role configuration for " ++ quote path ++ ": " ++ e))
    | None =>
        let* _ := dSetId path in
        terraformCloudSecretBackendRoleRead
    end.

Definition terraformCloudSecretBackendRoleDelete : M (option error) :=
  let* path := dId in
  let* (_, err) := call (Delete path) in
  match err with
  | Some e =>
      ret (Some ("error deleting Terraform Cloud backend role at " ++ quote path
                   ++ ": " ++ e))
  | None => ret None
  end.

Definition terraformCloudSecretBackendRoleExists : M (bool * option error) :=
  let* path := dId in
  let* (secret, err) := call (Read path) in
  match err with
  | Some e =>
      ret (false, Some ("error reading role configuration for " ++ quote path
                          ++ ": " ++ e))
  | None => ret (match secret with Some _ => true | None => false end, None)
  end.

(** ** The entity-alias resource *)

Definition identityEntityAliasPath : string := "/identity/entity-alias".

(** The [Schema] of [identityEntityAliasResource]. *)
Definition identityEntityAliasSchema : list (string * Schema) :=
  [ ("name", attr TypeString true false false [] None);
    ("mount_accessor", attr TypeString true false false [] None);
    ("canonical_id", attr TypeString true false false [] None);
    ("custom_metadata", attr TypeMap false true false [] None) ].

Definition identityEntityAliasNamePath (name : string) : string :=
  identityEntityAliasPath ++ "/name/" ++ name.

Definition identityEntityAliasIDPath (id : string) : string :=
  identityEntityAliasPath ++ "/id/" ++ id.

(** Modelled from the spec: [identityEntityIDPath] is declared in another
    file of the package; section 6 of the specification gives the path that
    the recovery reads as [/identity/entity-id/{canonical_id}]. *)
Definition identityEntityIDPath (id : string) : string :=
  "/identity/entity-id/" ++ id.

(** The loop of [findAliasID] over the entity's aliases: [None] is a failed
    type assertion, [Some None] the end of the list without a match. *)
Fixpoint findAliasLoop (aliases : list value) (name mountAccessor : string)
  : option (option string) :=
  match aliases with
  | [] => Some None
  | aliasRaw :: rest =>
      match assertMap aliasRaw with
      | None => None
      | Some alias =>
          if eqString (mapIndex alias "name") name
             && eqString (mapIndex alias "mount_accessor") mountAccessor
          then match assertString (mapIndex alias "id") with
               | Some id => Some (Some id)
               | None => None
               end
          else findAliasLoop rest name mountAccessor
      end
  end.

Definition findAliasID (canonicalID name mountAccessor : string)
  : M (string * option error) :=
  let path := identityEntityIDPath canonicalID in
  let notFound :=
    ret (EmptyString,
         Some ("unable to determine alias ID. canonical ID: " ++ quote canonicalID
                 ++ "  name: " ++ quote name ++ "  mountAccessor: "
                 ++ quote mountAccessor)) in
  let* (resp, err) := call (Read path) in
  match err with
  | Some e => ret (EmptyString, Some ("error reading entity aliases: " ++ e))
  | None =>
      match resp with
      | Some resp =>
          let* aliases := orPanic (assertSlice (mapIndex (Data resp) "aliases")) in
          let* found := orPanic (findAliasLoop aliases name mountAccessor) in
          match found with
          | Some id => ret (id, None)
          | None => notFound
          end
      | None => notFound
      end
  end.

Definition identityEntityAliasRead : M (option error) :=
  let* id := dId in
  let path := identityEntityAliasIDPath id in
  let* (resp, err) := call (Read path) in
  match err with
  | Some e => ret (Some ("error reading IdentityEntityAlias " ++ quote id ++ ": " ++ e))
  | None =>
      match resp with
      | None =>
          let* _ := dSetId EmptyString in
          ret None
      | Some resp =>
          let* newId := orPanic (assertString (mapIndex (Data resp) "id")) in
          let* _ := dSetId newId in
          let setKey (k : string) (next : M (option error)) : M (option error) :=
            let* err := dSet k (mapIndex (Data resp) k) in
            match err with
            | Some e =>
                ret (Some ("error setting state key " ++ quote k
                             ++ " on IdentityEntityAlias " ++ quote id
                             ++ ":  err=" ++ quote e))
            | None => next
            end in
          fold_right setKey (ret None)
            ["name"; "mount_accessor"; "canonical_id"; "custom_metadata"]
      end
  end.

Definition identityEntityAliasCreate : M (option error) :=
  let* v := dGet "name" in
  let* name := orPanic (assertString v) in
  let* v := dGet "mount_accessor" in
  let* mountAccessor := orPanic (assertString v) in
  let* v := dGet "canonical_id" in
  let* canonicalID := orPanic (assertString v) in
  let* v := dGet "custom_metadata" in
  let* customMetadata := orPanic (assertMap v) in
  let path := identityEntityAliasPath in
  let data : gmap string value :=
    <["custom_metadata" := VMap customMetadata]>
      (<["canonical_id" := VStr canonicalID]>
         (<["mount_accessor" := VStr mountAccessor]>
            (<["name" := VStr name]> ∅))) in
  let* (resp, err) := call (Write path data) in
  match err with
  | Some e =>
      ret (Some ("error writing IdentityEntityAlias to " ++ quote name ++ ": " ++ e))
  | None =>
      match resp with
      | None =>
          let* (aliasID, err) := findAliasID canonicalID name mountAccessor in
          let aliasIDMsg :=
            match err with
            | None => "Alias resource ID " ++ quote aliasID ++ " may be imported."
            | Some _ => "Unable to determine alias id."
            end in
          ret (Some ("IdentityEntityAlias " ++ quote name ++ " already exists. "
                       ++ aliasIDMsg))
      | Some resp =>
          let* id := orPanic (assertString (mapIndex (Data resp) "id")) in
          let* _ := dSetId id in
          identityEntityAliasRead
      end
  end.

(** [if v, ok := d.GetOk(key); ok { data[key] = v }] *)
Definition overlayIfOk (key : string) (data : gmap string value)
  : M (gmap string value) :=
  let* (v, ok) := dGetOk key in
  if ok then ret (<[key := v]> data) else ret data.

Definition identityEntityAliasUpdate : M (option error) :=
  let* id := dId in
  let path := identityEntityAliasIDPath id in
  let* (resp, err) := call (Read path) in
  match err with
  | Some e => ret (Some ("error updating IdentityEntityAlias " ++ quote id ++ ": " ++ e))
  | None =>
      (* [resp.Data] on a nil [resp] is a nil-pointer dereference *)
      let* resp := orPanic resp in
      let data : gmap string value :=
        <["canonical_id" := mapIndex (Data resp) "canonical_id"]>
          (<["mount_accessor" := mapIndex (Data resp) "mount_accessor"]>
             (<["name" := mapIndex (Data resp) "name"]> ∅)) in
      let* data := overlayIfOk "name" data in
      let* data := overlayIfOk "mount_accessor" data in
      let* data := overlayIfOk "canonical_id" data in
      let* v := dGet "custom_metadata" in
      let* customMetadata := orPanic (assertMap v) in
      let data := <["custom_metadata" := VMap customMetadata]> data in
      let* (_, err) := call (Write path data) in
      match err with
      | Some e =>
          ret (Some ("error updating IdentityEntityAlias " ++ quote id ++ ": " ++ e))
      | None => identityEntityAliasRead
      end
  end.

Definition identityEntityAliasDelete : M (option error) :=
  let* id := dId in
  let path := identityEntityAliasIDPath id in
  let* (_, err) := call (Delete path) in
  match err with
  | Some _ => ret (Some ("error IdentityEntityAlias " ++ quote id))
  | None => ret None
  end.

Definition identityEntityAliasExists : M (bool * option error) :=
  let* id := dId in
  let path := identityEntityAliasIDPath id in
  let key := id in
  let* (key, path) :=
    (if Nat.eqb (String.length id) 0 then
       let* v := dGet "name" in
       let* key := orPanic (assertString v) in
       ret (key, identityEntityAliasNamePath key)
     else ret (key, path)) in
  let* (resp, err) := call (Read path) in
  match err with
  | Some e =>
      ret (true, Some ("error checking if IdentityEntityAlias " ++ quote key
                         ++ " exists: " ++ e))
  | None => ret (match resp with Some _ => true | None => false end, None)
  end.

(** ** Running a handler against a client

    A client answers a request in view of the requests made before it.
    Running a handler yields the requests it made, in order, and how it
    ended. *)

Definition client : Type := list request -> request -> response.

Inductive outcome (A : Type) : Type :=
| Returned (a : A)
| Panicked.

Arguments Returned {A} a.
Arguments Panicked {A}.

Fixpoint run {A} (c : client) (log : list request) (p : io A)
  : list request * outcome A :=
  match p with
  | Ret a => ([], Returned a)
  | Panic => ([], Panicked)
  | Call r k =>
      let rest := run c (log ++ [r])%list (k (c log r)) in
      (r :: fst rest, snd rest)
  end.

Definition exec {A} (h : M A) (c : client) (d : ResourceData)
  : list request * outcome (A * ResourceData) :=
  run c [] (h d).

(** ** Create and Update as the SDK runs them

    Before it calls Create or Update the SDK validates the configuration
    against the schema.  Of that validation the model keeps, key by key and
    in the SDK's order, the [Required] check (a required attribute that the
    configuration does not have is refused) and the [ConflictsWith] check
    (an attribute of the configuration is refused when an attribute it
    conflicts with is in the configuration too).  The handler then receives
    the planned values: for each attribute of the schema the configured
    value, or else the default; the SDK reports as set those whose rendering
    is not empty, so a string configured as empty is not set, and an integer,
    0 included, is. *)

Definition validateConflictingAttributes (k : string) (s : Schema)
    (config : gmap string value) : option error :=
  match List.find (fun conflictingKey =>
                     match config !! conflictingKey with
                     | Some _ => true
                     | None => false
                     end) (ConflictsWith s) with
  | Some conflictingKey => Some (quote k ++ ": conflicts with " ++ conflictingKey)
  | None => None
  end.

Definition validateField (k : string) (s : Schema)
    (config : gmap string value) : option error :=
  match config !! k with
  | None =>
      if Required s then Some (quote k ++ ": required field is not set")
      else None
  | Some _ => validateConflictingAttributes k s config
  end.

Fixpoint validate (sch : list (string * Schema))
    (config : gmap string value) : list error :=
  match sch with
  | [] => []
  | (k, s) :: rest =>
      match validateField k s config with
      | Some e => e :: validate rest config
      | None => validate rest config
      end
  end.

(** The rendering of [v] in a diff is not empty. *)
Definition rendered (v : value) : bool :=
  match v with
  | VNil => false
  | VStr s => negb (String.eqb s EmptyString)
  | _ => true
  end.

Definition plannedValue (s : Schema) (k : string)
    (config : gmap string value) : option value :=
  match config !! k with
  | Some v => Some v
  | None => Default s
  end.

Fixpoint plannedFields (sch : list (string * Schema))
    (config : gmap string value) : gmap string value :=
  match sch with
  | [] => ∅
  | (k, s) :: rest =>
      let m := plannedFields rest config in
      match plannedValue s k config with
      | Some v => if rendered v then <[k := v]> m else delete k m
      | None => delete k m
      end
  end.

Definition planned (sch : list (string * Schema)) (id : string)
    (config : gmap string value) : ResourceData :=
  {| schema := sch; Id := id; fields := plannedFields sch config |}.

(** Every attribute of the configuration is in the schema and has its type:
    the configurations that reach a provider. *)
Definition fitsSchema (sch : list (string * Schema))
    (config : gmap string value) : bool :=
  forallb (fun kv : string * value =>
             match lookupSchema sch (fst kv) with
             | Some s => hasType (Type_ s) (snd kv)
             | None => false
             end) (map_to_list config).

Inductive applied : Type :=
| Invalid (errs : list error)
| Handled (err : option error) (d : ResourceData).

(** Create (with an empty [id]) and Update of the role resource; both are
    [terraformCloudSecretBackendRoleWrite]. *)
Definition terraformCloudSecretBackendRoleApply (id : string)
    (config : gmap string value) : io applied :=
  match validate terraformCloudSecretBackendRoleSchema config with
  | [] =>
      ioBind
        (terraformCloudSecretBackendRoleWrite
           (planned terraformCloudSecretBackendRoleSchema id config))
        (fun r => Ret (Handled (fst r) (snd r)))
  | errs => Ret (Invalid errs)
  end.

Definition roleData (id : string) (f : gmap string value) : ResourceData :=
  {| schema := terraformCloudSecretBackendRoleSchema; Id := id; fields := f |}.

Definition aliasData (id : string) (f : gmap string value) : ResourceData :=
  {| schema := identityEntityAliasSchema; Id := id; fields := f |}.

(** ** Predicates of the properties *)

(** No byte of [s] is a newline. *)
Fixpoint noNewline (s : string) : bool :=
  match s with
  | EmptyString => true
  | String c s' => negb (Ascii.eqb c newline) && noNewline s'
  end.

(** The separator [/role/] occurs in [s] with at least one byte after it. *)
Fixpoint splitsAtRole (s : string) : bool :=
  match stripPrefix "/role/" s with
  | Some (String _ _) => true
  | _ =>
      match s with
      | EmptyString => false
      | String _ s' => splitsAtRole s'
      end
  end.

(** [s] is made of printable ASCII bytes other than the double quote and the
    backslash: the strings that [%q] only wraps in quotes. *)
Fixpoint plain (s : string) : bool :=
  match s with
  | EmptyString => true
  | String c s' =>
      let n := nat_of_ascii c in
      Nat.leb 32 n && Nat.ltb n 127 && negb (Nat.eqb n 34) && negb (Nat.eqb n 92)
      && plain s'
  end.

Definition contains (s sub : string) : Prop :=
  exists pre post, s = pre ++ sub ++ post.

Definition isMap (v : value) : bool :=
  match v with VMap _ => true | _ => false end.

(** The alias entry [v] has the given name and mount accessor. *)
Definition aliasMatches (name mountAccessor : string) (v : value) : bool :=
  match v with
  | VMap alias =>
      eqString (mapIndex alias "name") name
      && eqString (mapIndex alias "mount_accessor") mountAccessor
  | _ => false
  end.

Definition isSome {A} (o : option A) : bool :=
  match o with Some _ => true | None => false end.

(** The entry [v] of an entity's aliases is a map that does not have the
    given name and mount accessor. *)
Definition noMatch (name mountAccessor : string) (v : value) : bool :=
  isMap v && negb (aliasMatches name mountAccessor v).

(** The attributes that the write of a role may carry. *)
Definition rolePayloadKeys : list string :=
  ["max_ttl"; "ttl"; "organization"; "team_id"; "user_id"].

(** What Create writes. *)
Definition aliasCreateData (name mountAccessor canonicalID : string)
    (meta : gmap string value) : gmap string value :=
  <["custom_metadata" := VMap meta]>
    (<["canonical_id" := VStr canonicalID]>
       (<["mount_accessor" := VStr mountAccessor]>
          (<["name" := VStr name]> ∅))).

(** The two error texts of a Create that the service answered with nothing. *)
Definition mergedWithID (name aliasID : string) : error :=
  "IdentityEntityAlias " ++ quote name ++ " already exists. "
    ++ "Alias resource ID " ++ quote aliasID ++ " may be imported.".

Definition mergedUnknownID (name : string) : error :=
  "IdentityEntityAlias " ++ quote name ++ " already exists. "
    ++ "Unable to determine alias id.".

(** A client that has nothing stored and never fails. *)
Definition nothing : client := fun _ _ => (None, None).

(** An entity with two aliases. *)
Definition aliceAlias : gmap string value :=
  {[ "name" := VStr "alice"; "mount_accessor" := VStr "auth_1";
     "id" := VStr "a-1" ]}.

Definition bobRemoteAlias : gmap string value :=
  {[ "name" := VStr "bob"; "mount_accessor" := VStr "auth_1";
     "id" := VStr "a-2" ]}.

Definition entityE1 : Secret :=
  {| Data := {[ "aliases" := VList [VMap aliceAlias; VMap bobRemoteAlias] ]} |}.

(** A service that answers every write with nothing, as it does when it
    merges an alias, and every read with that entity. *)
Definition mergingClient : client :=
  fun _ req =>
    match req with
    | Read _ => (Some entityE1, None)
    | _ => (None, None)
    end.

Definition bobAlias : ResourceData :=
  aliasData EmptyString
    {[ "name" := VStr "bob"; "mount_accessor" := VStr "auth_1";
       "canonical_id" := VStr "e1" ]}.

(** A role as the service returns it, and a service that accepts every write
    and answers every read with that role. *)
Definition adminRole : Secret :=
  {| Data := {[ "organization" := VStr "acme"; "team_id" := VStr "team-1";
                "max_ttl" := VInt 600; "ttl" := VInt 300 ]} |}.

Definition roleServer : client :=
  fun _ req =>
    match req with
    | Read _ => (Some adminRole, None)
    | _ => (None, None)
    end.

(** A service on which every request fails. *)
Definition failing (e : error) : client := fun _ _ => (None, Some e).

(** The payload of a role write: what the resource data has for the payload
    attributes. *)
Definition rolePayload (d : ResourceData) : gmap string value :=
  fold_left (fun m k => match fields d !! k with
                        | Some v => <[k := v]> m
                        | None => m
                        end) rolePayloadKeys ∅.

(** The alias of bob as the service returns it, and a service that answers
    every write with a response carrying the id [a-2] and every read with
    that alias. *)
Definition bobStored : Secret :=
  {| Data := {[ "id" := VStr "a-2"; "name" := VStr "bob";
                "mount_accessor" := VStr "auth_1"; "canonical_id" := VStr "e1";
                "custom_metadata" := VMap {[ "team" := VStr "a" ]} ]} |}.

Definition aliasServer : client :=
  fun _ req =>
    match req with
    | Read _ => (Some bobStored, None)
    | Write _ _ => (Some {| Data := {[ "id" := VStr "a-2" ]} |}, None)
    | Delete _ => (None, None)
    end.

(** [path] is [u/role/w] for non-empty [u] and [w] without newlines. *)
Definition roleSplit (path : string) : Prop :=
  exists u w,
    path = u ++ "/role/" ++ w
    /\ u <> EmptyString /\ w <> EmptyString
    /\ noNewline u = true /\ noNewline w = true.

#[local] Arguments terraformCloudSecretBackendRoleNameFromPath : simpl never.
#[local] Arguments terraformCloudSecretBackendRoleBackendFromPath : simpl never.
#[local] Arguments terraformCloudSecretBackendRolePath : simpl never.
#[local] Arguments quote : simpl never.

(** One step of a handler: the plumbing is unfolded, the library calls are
    left alone. *)
Ltac hstep :=
  repeat progress
    (unfold exec, bind, ret, call, panic, dId, dSetId, dGet, dGetOk,
       dGetOkExists, dSet;
     cbn [run ioBind orPanic assertString assertMap assertSlice]).

(** * Properties *)

(** ** Strings *)

Lemma append_cons (c : ascii) (s t : string) :
  String c s ++ t = String c (s ++ t).
Proof. reflexivity. Qed.

Lemma append_nil_l (s : string) : EmptyString ++ s = s.
Proof. reflexivity. Qed.

Lemma append_nil_r (s : string) : s ++ EmptyString = s.
Proof. induction s as [|c s IH]; [reflexivity|]. rewrite append_cons, IH. reflexivity. Qed.

Lemma append_assoc (s t u : string) : (s ++ t) ++ u = s ++ (t ++ u).
Proof.
  induction s as [|c s IH]; [reflexivity|].
  rewrite !append_cons, IH. reflexivity.
Qed.

Lemma length_append (s t : string) :
  String.length (s ++ t) = String.length s + String.length t.
Proof.
  induction s as [|c s IH]; [reflexivity|].
  rewrite append_cons. simpl. rewrite IH. reflexivity.
Qed.

(** Two splits of one string: the longer prefix extends the shorter one. *)
Lemma append_eq_append (u v u' v' : string) :
  u ++ v = u' ++ v' -> String.length u <= String.length u' ->
  exists z, u' = u ++ z /\ v = z ++ v'.
Proof.
  revert u'. induction u as [|c u IH]; intros u' E L.
  - exists u'. split; [reflexivity | exact E].
  - destruct u' as [|c' u']; [simpl in L; lia|].
    rewrite !append_cons in E. injection E as -> E.
    destruct (IH u' E) as (z & -> & ->); [simpl in L; lia|].
    exists z. split; reflexivity.
Qed.

Lemma stripPrefix_append (l s : string) : stripPrefix l (l ++ s) = Some s.
Proof.
  induction l as [|a l IH]; [reflexivity|].
  rewrite append_cons. simpl. rewrite Ascii.eqb_refl. exact IH.
Qed.

Lemma stripPrefix_Some (l s r : string) : stripPrefix l s = Some r -> s = l ++ r.
Proof.
  revert s. induction l as [|a l IH]; intros s H; simpl in H.
  - injection H as ->. reflexivity.
  - destruct s as [|b s]; [discriminate|].
    destruct (Ascii.eqb a b) eqn:E; [|discriminate].
    apply Ascii.eqb_eq in E as ->. rewrite append_cons. f_equal. auto.
Qed.

Lemma take_append (u v : string) : take (String.length u) (u ++ v) = u.
Proof.
  induction u as [|c u IH]; [destruct v; reflexivity|].
  rewrite append_cons. simpl. rewrite IH. reflexivity.
Qed.

Lemma take_all (u : string) : take (String.length u) u = u.
Proof. rewrite <- (append_nil_r u) at 2. apply take_append. Qed.

Lemma noNewline_append (u v : string) :
  noNewline (u ++ v) = noNewline u && noNewline v.
Proof.
  induction u as [|c u IH]; [reflexivity|].
  rewrite append_cons. simpl. rewrite IH, andb_assoc. reflexivity.
Qed.

(** ** The matcher *)

Section MatcherFacts.
Context {R : Type}.
Implicit Types (k : nat -> string -> option R).

(** [.+] fails when the continuation fails after every non-empty prefix
    that has no newline. *)
Lemma plusAny_None rest pos k :
  (forall u v, rest = u ++ v -> u <> EmptyString -> noNewline u = true ->
               k (pos + String.length u) v = None) ->
  plusAny rest pos k = None.
Proof.
  revert pos. induction rest as [|c rest IH]; intros pos H; [reflexivity|].
  simpl. destruct (Ascii.eqb c newline) eqn:Ec; [reflexivity|].
  rewrite IH.
  - specialize (H (String c EmptyString) rest eq_refl).
    simpl in H. rewrite Ec in H. simpl in H.
    replace (pos + 1) with (S pos) in H by lia.
    apply H; [discriminate | reflexivity].
  - intros u v -> Hu Hn.
    specialize (H (String c u) v eq_refl).
    simpl in H. rewrite Ec, Hn in H. simpl in H.
    replace (pos + S (String.length u)) with (S pos + String.length u) in H by lia.
    apply H; [discriminate | reflexivity].
Qed.

(** [.+] is greedy: it takes the longest prefix after which the
    continuation succeeds. *)
Lemma plusAny_longest u v pos k r :
  u <> EmptyString -> noNewline u = true ->
  k (pos + String.length u) v = Some r ->
  (forall u' v', u ++ v = u' ++ v' -> String.length u < String.length u' ->
                 noNewline u' = true -> k (pos + String.length u') v' = None) ->
  plusAny (u ++ v) pos k = Some r.
Proof.
  revert pos. induction u as [|c u IH]; intros pos Hu Hn Hk Hlong; [congruence|].
  rewrite append_cons. simpl in *.
  apply andb_true_iff in Hn as [Hc Hn]. apply negb_true_iff in Hc. rewrite Hc.
  destruct u as [|c' u].
  - rewrite append_nil_l in *. rewrite plusAny_None.
    + replace (S pos) with (pos + 1) by lia. exact Hk.
    + intros u1 v1 -> Hu1 Hn1.
      replace (S pos + String.length u1) with (pos + String.length (String c u1))
        by (simpl; lia).
      apply Hlong.
      * reflexivity.
      * destruct u1; [congruence | simpl; lia].
      * simpl. rewrite Hc, Hn1. reflexivity.
  - rewrite (IH (S pos)).
    + reflexivity.
    + discriminate.
    + exact Hn.
    + rewrite <- Hk. f_equal. simpl. lia.
    + intros u1 v1 E L Hn1.
      replace (S pos + String.length u1) with (pos + String.length (String c u1))
        by (simpl; lia).
      apply Hlong.
      * rewrite append_cons, E. reflexivity.
      * simpl in *. lia.
      * simpl. rewrite Hc, Hn1. reflexivity.
Qed.

(** [.+$] takes the whole rest of the input, which must be non-empty and
    free of newlines. *)
Lemma plusAny_EndText w pos (k : nat -> option R) :
  plusAny w pos (fun p r => match r with
                            | EmptyString => k p
                            | String _ _ => None
                            end)
  = match w with
    | EmptyString => None
    | String _ _ => if noNewline w then k (pos + String.length w) else None
    end.
Proof.
  revert pos. induction w as [|c w IH]; intros pos; [reflexivity|].
  simpl. destruct (Ascii.eqb c newline); [reflexivity|]. simpl.
  rewrite IH. destruct w as [|c' w].
  - simpl. f_equal. lia.
  - destruct (noNewline (String c' w)); [|reflexivity].
    replace (S pos + String.length (String c' w))
      with (pos + S (String.length (String c' w))) by lia.
    destruct (k _); reflexivity.
Qed.
End MatcherFacts.

(** ** Parsing a role path *)

Lemma splitsAtRole_tail (c : ascii) (s : string) :
  splitsAtRole (String c s) = false -> splitsAtRole s = false.
Proof.
  change (splitsAtRole (String c s))
    with (match stripPrefix "/role/" (String c s) with
          | Some (String _ _) => true
          | _ => splitsAtRole s
          end).
  destruct (stripPrefix "/role/" (String c s)) as [[|? ?]|]; congruence.
Qed.

Lemma splitsAtRole_false (s x w : string) :
  splitsAtRole s = false -> s = x ++ "/role/" ++ w -> w = EmptyString.
Proof.
  revert s. induction x as [|c x IH]; intros s H ->.
  - destruct w as [|c w]; [reflexivity | discriminate H].
  - rewrite append_cons in H. apply splitsAtRole_tail in H. eauto.
Qed.

(** In [backend/role/name] no later split at [/role/] leaves a non-empty
    name, provided that [/name] has none. *)
Lemma last_split (backend name u w : string) :
  splitsAtRole ("/" ++ name) = false ->
  backend ++ "/role/" ++ name = u ++ "/role/" ++ w ->
  String.length backend < String.length u ->
  w = EmptyString.
Proof.
  intros Hs E L.
  destruct (append_eq_append backend _ u _ E) as (z & -> & E'); [lia|].
  rewrite length_append in L.
  destruct z as [|c0 z]; [simpl in L; lia|].
  rewrite !append_cons, ?append_nil_l in E'.
  injection E' as <- E'.
  do 4 (destruct z as [|? z];
        [rewrite ?append_cons, ?append_nil_l in E'; discriminate E'|];
        rewrite append_cons in E'; injection E' as <- E').
  apply (splitsAtRole_false _ z w Hs). exact E'.
Qed.

Lemma findFrom_unfold (re : Regexp) (pos : nat) (rest : string) :
  findFrom re pos rest =
  match rmatch re pos rest [] (fun p _ caps => Some (take (p - pos) rest :: caps)) with
  | Some m => Some m
  | None =>
      match rest with
      | EmptyString => None
      | String _ rest' => findFrom re (S pos) rest'
      end
  end.
Proof. destruct rest; reflexivity. Qed.

(** Both patterns have the shape [^.+/role/.+$]: the first [.+] stops
    before the last [/role/] that leaves a non-empty rest. *)
Lemma plusAny_role {R : Type} (backend name : string)
    (K : nat -> string -> nat -> option R) (r : R) :
  backend <> EmptyString -> name <> EmptyString ->
  noNewline backend = true -> noNewline name = true ->
  splitsAtRole ("/" ++ name) = false ->
  K (String.length backend) name
    (String.length backend + 6 + String.length name) = Some r ->
  plusAny (backend ++ "/role/" ++ name) 0
    (fun p rest =>
       match stripPrefix "/role/" rest with
       | Some rest' =>
           plusAny rest' (p + 6)
             (fun p' rest'' =>
                match rest'' with
                | EmptyString => K p rest' p'
                | String _ _ => None
                end)
       | None => None
       end)
  = Some r.
Proof.
  intros Hb Hn Nb Nn Hs HK.
  apply plusAny_longest; [exact Hb | exact Nb | |].
  - cbn beta. rewrite stripPrefix_append, plusAny_EndText.
    destruct name as [|c name]; [congruence|]. rewrite Nn.
    rewrite <- HK. f_equal.
  - intros u' v' E L _. cbn beta.
    destruct (stripPrefix "/role/" v') as [w|] eqn:Ev; [|reflexivity].
    apply stripPrefix_Some in Ev as ->.
    rewrite (last_split backend name u' w Hs E L). reflexivity.
Qed.

Lemma length_role_path (backend name : string) :
  String.length (backend ++ "/role/" ++ name)
  = String.length backend + 6 + String.length name.
Proof. rewrite !length_append. simpl. lia. Qed.

Lemma backendRegex_find (backend name : string) :
  backend <> EmptyString -> name <> EmptyString ->
  noNewline backend = true -> noNewline name = true ->
  splitsAtRole ("/" ++ name) = false ->
  findFrom terraformCloudSecretBackendRoleBackendFromPathRegex 0
    (backend ++ "/role/" ++ name)
  = Some [backend ++ "/role/" ++ name; backend].
Proof.
  intros Hb Hn Nb Nn Hs.
  rewrite findFrom_unfold.
  unfold terraformCloudSecretBackendRoleBackendFromPathRegex.
  cbn [rmatch Nat.eqb String.length Nat.add app].
  rewrite (plusAny_role backend name
             (fun p _ p' => Some [take (p' - 0) (backend ++ "/role/" ++ name);
                                  take (p - 0) (backend ++ "/role/" ++ name)])
             [backend ++ "/role/" ++ name; backend]);
    try assumption; [reflexivity|].
  cbn beta. rewrite !Nat.sub_0_r, <- length_role_path.
  rewrite take_all, take_append. reflexivity.
Qed.

Lemma nameRegex_find (backend name : string) :
  backend <> EmptyString -> name <> EmptyString ->
  noNewline backend = true -> noNewline name = true ->
  splitsAtRole ("/" ++ name) = false ->
  findFrom terraformCloudSecretBackendRoleNameFromPathRegex 0
    (backend ++ "/role/" ++ name)
  = Some [backend ++ "/role/" ++ name; name].
Proof.
  intros Hb Hn Nb Nn Hs.
  rewrite findFrom_unfold.
  unfold terraformCloudSecretBackendRoleNameFromPathRegex.
  cbn [rmatch Nat.eqb String.length Nat.add app].
  rewrite (plusAny_role backend name
             (fun p rest' p' => Some [take (p' - 0) (backend ++ "/role/" ++ name);
                                      take (p' - (p + 6)) rest'])
             [backend ++ "/role/" ++ name; name]);
    try assumption; [reflexivity|].
  cbn beta. rewrite !Nat.sub_0_r, <- length_role_path.
  rewrite take_all, length_role_path.
  replace (String.length backend + 6 + String.length name
           - (String.length backend + 6)) with (String.length name) by lia.
  rewrite take_all. reflexivity.
Qed.

(** Parsing a well-formed role path gives back its two parts. *)
Lemma parse_role_path (backend name : string) :
  backend <> EmptyString -> name <> EmptyString ->
  noNewline backend = true -> noNewline name = true ->
  splitsAtRole ("/" ++ name) = false ->
  terraformCloudSecretBackendRoleBackendFromPath (backend ++ "/role/" ++ name)
    = (backend, None)
  /\ terraformCloudSecretBackendRoleNameFromPath (backend ++ "/role/" ++ name)
    = (name, None).
Proof.
  intros Hb Hn Nb Nn Hs.
  unfold terraformCloudSecretBackendRoleBackendFromPath,
    terraformCloudSecretBackendRoleNameFromPath, MatchString, FindStringSubmatch.
  rewrite backendRegex_find, nameRegex_find by assumption.
  split; reflexivity.
Qed.

(** ** Round trip of the role path *)

(** C1 (as stated, refuted).  With the backend [tfc] and the role name
    [a/role/b], both non-empty, free of newlines and of outer slashes, the
    path is [tfc/role/a/role/b] and parsing it yields the backend
    [tfc/role/a] and the name [b], not the original pair. *)
Lemma role_path_round_trip_fails :
  ~ (forall backend name : string,
       backend <> EmptyString -> name <> EmptyString ->
       noNewline backend = true -> noNewline name = true ->
       Trim backend "/" = backend ->
       terraformCloudSecretBackendRoleBackendFromPath
         (terraformCloudSecretBackendRolePath backend name) = (backend, None)
       /\ terraformCloudSecretBackendRoleNameFromPath
            (terraformCloudSecretBackendRolePath backend name) = (name, None)).
Proof.
  intros H.
  destruct (H "tfc" "a/role/b") as [Hb _];
    [discriminate | discriminate | reflexivity | reflexivity | reflexivity |].
  vm_compute in Hb. discriminate Hb.
Qed.

(** C1 (amended).  For every backend and role name without newlines such
    that the backend stripped of its outer slashes is not empty, the name is
    not empty, and [/role/] followed by at least one byte does not occur in
    [/name], parsing the role path yields the stripped backend and the
    name. *)
Theorem role_path_round_trip (backend name : string) :
  Trim backend "/" <> EmptyString -> name <> EmptyString ->
  noNewline (Trim backend "/") = true -> noNewline name = true ->
  splitsAtRole ("/" ++ name) = false ->
  terraformCloudSecretBackendRoleBackendFromPath
    (terraformCloudSecretBackendRolePath backend name)
    = (Trim backend "/", None)
  /\ terraformCloudSecretBackendRoleNameFromPath
       (terraformCloudSecretBackendRolePath backend name)
    = (name, None).
Proof.
  intros Hb Hn Nb Nn Hs. unfold terraformCloudSecretBackendRolePath.
  apply parse_role_path; assumption.
Qed.

(** The example of the specification: [path("tfc/", "admin")] is
    [tfc/role/admin], which parses to [("tfc", "admin")]. *)
Lemma role_path_round_trip_example :
  terraformCloudSecretBackendRolePath "tfc/" "admin" = "tfc/role/admin"
  /\ terraformCloudSecretBackendRoleBackendFromPath "tfc/role/admin" = ("tfc", None)
  /\ terraformCloudSecretBackendRoleNameFromPath "tfc/role/admin" = ("admin", None).
Proof.
  split; [reflexivity|].
  apply (role_path_round_trip "tfc/" "admin");
    first [discriminate | reflexivity].
Defined.

(** ** The conditions of the round trip are needed *)

Section MatcherInversion.
Context {R : Type}.
Implicit Types (k : nat -> string -> option R).

Lemma plusAny_None_inv rest pos k :
  plusAny rest pos k = None ->
  forall u v, rest = u ++ v -> u <> EmptyString -> noNewline u = true ->
              k (pos + String.length u) v = None.
Proof.
  revert pos. induction rest as [|c rest IH]; intros pos H u v E Hu Hn.
  - destruct u; [congruence | discriminate E].
  - destruct u as [|c' u]; [congruence|].
    rewrite append_cons in E. injection E as <- ->.
    cbn [plusAny] in H. cbn [noNewline] in Hn.
    apply andb_true_iff in Hn as [Hc Hn]. apply negb_true_iff in Hc.
    rewrite Hc in H.
    destruct (plusAny (u ++ v) (S pos) k) eqn:Hin; [discriminate H|].
    destruct u as [|c'' u].
    + rewrite append_nil_l in H. cbn [String.length].
      replace (pos + 1) with (S pos) by lia. exact H.
    + replace (pos + String.length (String c (String c'' u)))
        with (S pos + String.length (String c'' u)) by (cbn [String.length]; lia).
      apply (IH (S pos) Hin); [reflexivity | discriminate | exact Hn].
Qed.

Lemma plusAny_Some_inv rest pos k r :
  plusAny rest pos k = Some r ->
  exists u v,
    rest = u ++ v /\ u <> EmptyString /\ noNewline u = true
    /\ k (pos + String.length u) v = Some r
    /\ (forall u' v', rest = u' ++ v' -> String.length u < String.length u' ->
                      noNewline u' = true ->
                      k (pos + String.length u') v' = None).
Proof.
  revert pos. induction rest as [|c rest IH]; intros pos H; [discriminate H|].
  cbn [plusAny] in H.
  destruct (Ascii.eqb c newline) eqn:Hc; [discriminate H|].
  destruct (plusAny rest (S pos) k) as [r'|] eqn:Hin.
  - injection H as ->.
    destruct (IH (S pos) Hin) as (u & v & -> & Hu & Hn & Hk & Hmax).
    exists (String c u), v. repeat split.
    + discriminate.
    + cbn [noNewline]. rewrite Hc, Hn. reflexivity.
    + rewrite <- Hk. f_equal. cbn [String.length]. lia.
    + intros u' v' E L Hn'.
      destruct u' as [|c' u']; [cbn [String.length] in L; lia|].
      rewrite !append_cons in E. injection E as <- E.
      cbn [noNewline] in Hn'. apply andb_true_iff in Hn' as [_ Hn'].
      replace (pos + String.length (String c u'))
        with (S pos + String.length u') by (cbn [String.length]; lia).
      apply Hmax; [exact E | cbn [String.length] in L; lia | exact Hn'].
  - exists (String c EmptyString), rest. repeat split.
    + discriminate.
    + cbn [noNewline]. rewrite Hc. reflexivity.
    + cbn [String.length]. replace (pos + 1) with (S pos) by lia. exact H.
    + intros u' v' E L Hn'.
      destruct u' as [|c' u']; [cbn [String.length] in L; lia|].
      rewrite append_cons in E. injection E as <- E.
      cbn [noNewline] in Hn'. apply andb_true_iff in Hn' as [_ Hn'].
      replace (pos + String.length (String c u'))
        with (S pos + String.length u') by (cbn [String.length]; lia).
      apply (plusAny_None_inv rest (S pos) k Hin u' v' E); [|exact Hn'].
      destruct u'; [cbn [String.length] in L; lia | discriminate].
Qed.
End MatcherInversion.

Lemma append_inv_head (s t t' : string) : s ++ t = s ++ t' -> t = t'.
Proof.
  induction s as [|c s IH]; intros E; [exact E|].
  rewrite !append_cons in E. injection E as E. exact (IH E).
Qed.

Lemma findFrom_BeginText (re : Regexp) (pos : nat) (rest : string) :
  findFrom (Concat BeginText re) (S pos) rest = None.
Proof.
  revert pos. induction rest as [|c rest IH]; intros pos.
  - reflexivity.
  - rewrite findFrom_unfold. cbn [rmatch Nat.eqb]. apply IH.
Qed.

Lemma splitsAtRole_true (s : string) :
  splitsAtRole s = true ->
  exists x w, s = x ++ "/role/" ++ w /\ w <> EmptyString.
Proof.
  induction s as [|a s IH]; [discriminate|].
  change (splitsAtRole (String a s))
    with (match stripPrefix "/role/" (String a s) with
          | Some (String _ _) => true
          | _ => splitsAtRole s
          end).
  destruct (stripPrefix "/role/" (String a s)) as [[|c w]|] eqn:E; intros H.
  - destruct (IH H) as (x & w & -> & Hw). exists (String a x), w. split; [reflexivity | exact Hw].
  - apply stripPrefix_Some in E. exists EmptyString, (String c w).
    split; [exact E | discriminate].
  - destruct (IH H) as (x & w & -> & Hw). exists (String a x), w. split; [reflexivity | exact Hw].
Qed.

(** What a match of the backend pattern says about the path. *)
Lemma backendRegex_inv (path whole cap : string) :
  findFrom terraformCloudSecretBackendRoleBackendFromPathRegex 0 path
    = Some [whole; cap] ->
  exists w,
    path = cap ++ "/role/" ++ w
    /\ cap <> EmptyString /\ w <> EmptyString
    /\ noNewline cap = true /\ noNewline w = true
    /\ (forall u' w', path = u' ++ "/role/" ++ w' ->
                      String.length cap < String.length u' ->
                      noNewline u' = true -> noNewline w' = true ->
                      w' = EmptyString).
Proof.
  rewrite findFrom_unfold.
  unfold terraformCloudSecretBackendRoleBackendFromPathRegex.
  cbn [rmatch Nat.eqb String.length Nat.add app].
  destruct (plusAny path 0 _) as [m|] eqn:Hplus.
  - intros [= ->].
    apply plusAny_Some_inv in Hplus as (u & v & -> & Hu & Hn & Hk & Hmax).
    cbn beta in Hk.
    destruct (stripPrefix "/role/" v) as [w|] eqn:Hv; [|discriminate Hk].
    apply stripPrefix_Some in Hv as ->.
    rewrite plusAny_EndText in Hk.
    destruct w as [|c w]; [discriminate Hk|].
    destruct (noNewline (String c w)) eqn:Hw; [|discriminate Hk].
    injection Hk as _ Hcap. cbn [Nat.add] in Hcap.
    rewrite Nat.sub_0_r, take_append in Hcap. subst cap.
    exists (String c w). repeat split; try assumption; try discriminate.
    intros u' w' E L Hn' Hw'.
    specialize (Hmax u' ("/role/" ++ w') E L Hn'). cbn beta in Hmax.
    rewrite stripPrefix_append, plusAny_EndText in Hmax.
    destruct w' as [|c' w']; [reflexivity|].
    rewrite Hw' in Hmax. discriminate Hmax.
  - destruct path as [|c path]; [discriminate|].
    rewrite findFrom_BeginText. discriminate.
Qed.

(** The conditions of the round trip are met whenever the backend is parsed
    back: without any of them the round trip fails. *)
Lemma role_path_round_trip_only_if (backend name : string) :
  terraformCloudSecretBackendRoleBackendFromPath
    (terraformCloudSecretBackendRolePath backend name)
    = (Trim backend "/", None) ->
  Trim backend "/" <> EmptyString /\ name <> EmptyString
  /\ noNewline (Trim backend "/") = true /\ noNewline name = true
  /\ splitsAtRole ("/" ++ name) = false.
Proof.
  unfold terraformCloudSecretBackendRoleBackendFromPath,
    terraformCloudSecretBackendRolePath, MatchString, FindStringSubmatch.
  set (B := Trim backend "/").
  destruct (findFrom _ 0 (B ++ "/role/" ++ name)) as [m|] eqn:Hfind;
    [|discriminate].
  cbn [negb]. destruct m as [|whole [|cap [|? ?]]]; try discriminate.
  intros [= Hcap]. subst cap.
  apply backendRegex_inv in Hfind as (w & E & HB & Hw & HnB & Hnw & Hmax).
  do 2 apply append_inv_head in E. subst w.
  repeat split; try assumption.
  destruct (splitsAtRole ("/" ++ name)) eqn:Hs; [|reflexivity].
  apply splitsAtRole_true in Hs as (x & w' & Hx & Hw').
  exfalso. apply Hw'.
  assert (noNewline ("/" ++ name) = true) as Hnx by exact Hnw.
  rewrite Hx, !noNewline_append in Hnx.
  apply andb_true_iff in Hnx as [Hnx Hnw'].
  apply andb_true_iff in Hnw' as [_ Hnw'].
  apply (Hmax (B ++ "/role" ++ x) w').
  - rewrite !append_assoc. f_equal.
    change ("/role/" ++ name) with ("/role" ++ "/" ++ name). rewrite Hx. reflexivity.
  - rewrite !length_append. cbn [String.length]. lia.
  - rewrite !noNewline_append, HnB, Hnx. reflexivity.
  - exact Hnw'.
Qed.

(** ** Reading a role *)


(** C2 (as stated, refuted).  With the id [tfc/role/admin] and a client that
    finds nothing, Read fails but the id is still [tfc/role/admin]. *)
Lemma role_read_absent_keeps_id :
  ~ (forall (c : client) (d : ResourceData),
       c [] (Read (Id d)) = (None, None) ->
       exists trace e d',
         exec terraformCloudSecretBackendRoleRead c d
           = (trace, Returned (Some e, d'))
         /\ Id d' = EmptyString).
Proof.
  intros H.
  destruct (H nothing (roleData "tfc/role/admin" ∅) eq_refl)
    as (trace & e & d' & E & Hid).
  vm_compute in E. injection E as _ _ <-. discriminate Hid.
Qed.

(** C2 (amended).  When the stored id parses as a role path and the remote
    read returns no object and no error, Read fails with the error
    [resource not found], after the one read, and leaves the resource data,
    the id included, as it was. *)
Theorem role_read_absent (c : client) (d : ResourceData) (backend name : string) :
  terraformCloudSecretBackendRoleNameFromPath (Id d) = (name, None) ->
  terraformCloudSecretBackendRoleBackendFromPath (Id d) = (backend, None) ->
  c [] (Read (Id d)) = (None, None) ->
  exec terraformCloudSecretBackendRoleRead c d
  = ([Read (Id d)], Returned (Some "resource not found", d)).
Proof.
  intros Hn Hb Hc. unfold terraformCloudSecretBackendRoleRead.
  hstep. rewrite Hn, Hb. hstep. rewrite Hc. reflexivity.
Qed.

Lemma role_read_absent_example :
  exec terraformCloudSecretBackendRoleRead nothing (roleData "tfc/role/admin" ∅)
  = ([Read "tfc/role/admin"],
     Returned (Some "resource not found", roleData "tfc/role/admin" ∅)).
Proof.
  apply (role_read_absent nothing (roleData "tfc/role/admin" ∅) "tfc" "admin");
    reflexivity.
Defined.

(** An id that does not parse is cleared without any remote read. *)
Lemma role_read_invalid_id (c : client) (d : ResourceData) (e : error) :
  terraformCloudSecretBackendRoleNameFromPath (Id d) = (EmptyString, Some e) ->
  exec terraformCloudSecretBackendRoleRead c d
  = ([], Returned (Some ("invalid role ID " ++ quote (Id d) ++ ": " ++ e),
                   SetId d EmptyString)).
Proof.
  intros Hn. unfold terraformCloudSecretBackendRoleRead.
  hstep. rewrite Hn. reflexivity.
Qed.

(** ** Reading, deleting and updating an alias *)

(** C7.  When the remote read of the alias returns no object and no error,
    Read clears the id and returns without an error; the other attributes
    are left as they were. *)
Theorem alias_read_absent (c : client) (d : ResourceData) :
  c [] (Read (identityEntityAliasIDPath (Id d))) = (None, None) ->
  exec identityEntityAliasRead c d
  = ([Read (identityEntityAliasIDPath (Id d))],
     Returned (None, SetId d EmptyString)).
Proof.
  intros H. unfold exec, identityEntityAliasRead. simpl.
  rewrite H. reflexivity.
Qed.

Lemma alias_read_absent_example :
  exec identityEntityAliasRead nothing (aliasData "a1" ∅)
  = ([Read "/identity/entity-alias/id/a1"], Returned (None, aliasData EmptyString ∅)).
Proof. apply (alias_read_absent nothing (aliasData "a1" ∅)). reflexivity. Defined.

(** C9.  When the remote delete fails, Delete returns an error whose text is
    made of the alias id alone: it is the same whatever the text [e] of the
    underlying error. *)
Theorem alias_delete_error (c : client) (d : ResourceData)
    (s : option Secret) (e : error) :
  c [] (Delete (identityEntityAliasIDPath (Id d))) = (s, Some e) ->
  exec identityEntityAliasDelete c d
  = ([Delete (identityEntityAliasIDPath (Id d))],
     Returned (Some ("error IdentityEntityAlias " ++ quote (Id d)), d)).
Proof.
  intros H. unfold exec, identityEntityAliasDelete. simpl.
  rewrite H. reflexivity.
Qed.

Lemma alias_delete_error_example :
  exec identityEntityAliasDelete (fun _ _ => (None, Some "permission denied"))
    (aliasData "a1" ∅)
  = ([Delete "/identity/entity-alias/id/a1"],
     Returned (Some ("error IdentityEntityAlias " ++ dquote ++ "a1" ++ dquote),
               aliasData "a1" ∅)).
Proof.
  apply (alias_delete_error (fun _ _ => (None, Some "permission denied"))
           (aliasData "a1" ∅) None "permission denied").
  reflexivity.
Defined.

(** C10.  When the first read of Update returns no object and no error,
    Update panics on [resp.Data] right after that read: it neither returns
    an error nor writes. *)
Theorem alias_update_absent_panics (c : client) (d : ResourceData) :
  c [] (Read (identityEntityAliasIDPath (Id d))) = (None, None) ->
  exec identityEntityAliasUpdate c d
  = ([Read (identityEntityAliasIDPath (Id d))], Panicked).
Proof.
  intros H. unfold exec, identityEntityAliasUpdate. simpl.
  rewrite H. reflexivity.
Qed.

Lemma alias_update_absent_panics_example :
  exec identityEntityAliasUpdate nothing (aliasData "a1" ∅)
  = ([Read "/identity/entity-alias/id/a1"], Panicked).
Proof. apply (alias_update_absent_panics nothing (aliasData "a1" ∅)). reflexivity. Defined.

(** ** Existence of an alias *)

(** C8 (as stated, refuted).  With an empty id, the name [bob] and a service
    whose reads fail, the name-indexed path resolves to nothing and yet
    Exists answers [true]. *)
Lemma alias_exists_true_on_failed_read :
  ~ (forall (c : client) (d : ResourceData) (name : string),
       Id d = EmptyString -> Get d "name" = VStr name ->
       exists trace b err d',
         exec identityEntityAliasExists c d = (trace, Returned ((b, err), d'))
         /\ (b = true
             <-> exists s,
                   fst (c [] (Read (identityEntityAliasNamePath name))) = Some s)).
Proof.
  intros H.
  assert (Get (aliasData EmptyString {[ "name" := VStr "bob" ]}) "name" = VStr "bob")
    as Hname by reflexivity.
  destruct (H (failing "sealed") (aliasData EmptyString {[ "name" := VStr "bob" ]})
              "bob" eq_refl Hname)
    as (trace & b & err & d' & E & Hiff).
  vm_compute in E. injection E as _ <- _ _.
  destruct (proj1 Hiff eq_refl) as [s Hs]. discriminate Hs.
Qed.

(** C8 (amended).  With an empty id, Exists reads the name-indexed path of
    the [name] attribute; with any other id it reads the id-indexed path.  It
    makes that one read and leaves the resource data untouched.  When the
    read does not fail the answer is whether an object came back, with no
    error; when the read fails the answer is [true], together with an error
    that names the key looked up and carries the cause. *)
Theorem alias_exists_path (c : client) (d : ResourceData) (name : string)
    (s : option Secret) (err : option error) :
  Get d "name" = VStr name ->
  let key := if String.eqb (Id d) EmptyString then name else Id d in
  let path := if String.eqb (Id d) EmptyString
              then "/identity/entity-alias/name/" ++ name
              else "/identity/entity-alias/id/" ++ Id d in
  c [] (Read path) = (s, err) ->
  exec identityEntityAliasExists c d
  = ([Read path],
     Returned
       (match err with
        | Some e =>
            (true, Some ("error checking if IdentityEntityAlias " ++ quote key
                           ++ " exists: " ++ e))
        | None => (isSome s, None)
        end, d)).
Proof.
  intros Hname key path Hc. subst key path.
  unfold identityEntityAliasExists. hstep.
  destruct (Id d) as [|a id] eqn:Eid.
  - cbn [String.length Nat.eqb String.eqb] in *. hstep.
    rewrite Hname. hstep. unfold assertString. hstep.
    change (identityEntityAliasNamePath name)
      with ("/identity/entity-alias/name/" ++ name).
    rewrite Hc. destruct err; [reflexivity|]. destruct s; reflexivity.
  - cbn [String.length Nat.eqb String.eqb] in *. hstep.
    change (identityEntityAliasIDPath (String a id))
      with ("/identity/entity-alias/id/" ++ String a id).
    rewrite Hc. destruct err; [reflexivity|]. destruct s; reflexivity.
Qed.

(** With an empty id and the name [bob]: a service that has the alias, one
    that has nothing, and one whose reads fail. *)
Lemma alias_exists_path_example :
  exec identityEntityAliasExists aliasServer
    (aliasData EmptyString {[ "name" := VStr "bob" ]})
  = ([Read "/identity/entity-alias/name/bob"],
     Returned ((true, None), aliasData EmptyString {[ "name" := VStr "bob" ]}))
  /\ exec identityEntityAliasExists nothing
       (aliasData EmptyString {[ "name" := VStr "bob" ]})
     = ([Read "/identity/entity-alias/name/bob"],
        Returned ((false, None), aliasData EmptyString {[ "name" := VStr "bob" ]}))
  /\ exec identityEntityAliasExists (failing "sealed")
       (aliasData EmptyString {[ "name" := VStr "bob" ]})
     = ([Read "/identity/entity-alias/name/bob"],
        Returned ((true, Some ("error checking if IdentityEntityAlias " ++ dquote
                                 ++ "bob" ++ dquote ++ " exists: sealed")),
                  aliasData EmptyString {[ "name" := VStr "bob" ]})).
Proof.
  split; [|split].
  - apply (alias_exists_path aliasServer
             (aliasData EmptyString {[ "name" := VStr "bob" ]}) "bob"
             (Some bobStored) None);
      reflexivity.
  - apply (alias_exists_path nothing
             (aliasData EmptyString {[ "name" := VStr "bob" ]}) "bob" None None);
      reflexivity.
  - apply (alias_exists_path (failing "sealed")
             (aliasData EmptyString {[ "name" := VStr "bob" ]}) "bob" None
             (Some "sealed"));
      reflexivity.
Defined.

(** When the read fails, Exists reports the error together with [true]. *)
Lemma alias_exists_error (c : client) (d : ResourceData) (id : string)
    (s : option Secret) (e : error) :
  Id d = id -> id <> EmptyString ->
  c [] (Read (identityEntityAliasIDPath id)) = (s, Some e) ->
  exec identityEntityAliasExists c d
  = ([Read (identityEntityAliasIDPath id)],
     Returned ((true, Some ("error checking if IdentityEntityAlias " ++ quote id
                              ++ " exists: " ++ e)), d)).
Proof.
  intros Eid Hid Hc. unfold identityEntityAliasExists. hstep.
  rewrite Eid. destruct id as [|a id]; [congruence|].
  cbn [String.length Nat.eqb]. hstep. rewrite Hc. reflexivity.
Qed.

(** ** Updating an alias *)

Lemma overlayIfOk_eq (key : string) (data : gmap string value) (d : ResourceData) :
  overlayIfOk key data d
  = Ret (if snd (GetOk d key) then <[key := fst (GetOk d key)]> data else data, d).
Proof.
  unfold overlayIfOk. hstep. destruct (GetOk d key) as [v []]; reflexivity.
Qed.

Lemma putIfExists_eq (key : string) (payload : gmap string value) (d : ResourceData) :
  putIfExists key payload d
  = Ret (match fields d !! key with
         | Some v => <[key := v]> payload
         | None => payload
         end, d).
Proof.
  unfold putIfExists. hstep. unfold GetOkExists.
  destruct (fields d !! key); reflexivity.
Qed.

(** C4.  Update first reads the alias at its id path.  When that read returns
    an object, the next request writes to the same path a payload in which
    each of [name], [mount_accessor] and [canonical_id] is the value of the
    resource data if [GetOk] reports it set, and the value just read
    otherwise: an attribute that the resource data has with a value other
    than the zero value of its type goes into the payload, and one that the
    resource data does not have, or has with the zero value, keeps the value
    read.  [custom_metadata] in the payload is the map of the resource data,
    whatever metadata the remote object has, and the payload has no other
    key. *)
Theorem alias_update_overlay (c : client) (d : ResourceData) (remote : Secret)
    (meta : gmap string value) :
  let path := identityEntityAliasIDPath (Id d) in
  c [] (Read path) = (Some remote, None) ->
  Get d "custom_metadata" = VMap meta ->
  exists (data : gmap string value) (trace : list request)
         (o : outcome (option error * ResourceData)),
    exec identityEntityAliasUpdate c d = (Read path :: Write path data :: trace, o)
    /\ (forall k, In k ["name"; "mount_accessor"; "canonical_id"] ->
          data !! k = Some (if snd (GetOk d k) then fst (GetOk d k)
                            else mapIndex (Data remote) k))
    /\ (forall k v, In k ["name"; "mount_accessor"; "canonical_id"] ->
          fields d !! k = Some v -> isZero v = false -> data !! k = Some v)
    /\ (forall k v, In k ["name"; "mount_accessor"; "canonical_id"] ->
          fields d !! k = Some v -> isZero v = true ->
          data !! k = Some (mapIndex (Data remote) k))
    /\ (forall k, In k ["name"; "mount_accessor"; "canonical_id"] ->
          fields d !! k = None -> data !! k = Some (mapIndex (Data remote) k))
    /\ data !! "custom_metadata" = Some (VMap meta)
    /\ (forall k, ~ In k ["name"; "mount_accessor"; "canonical_id"; "custom_metadata"] ->
          data !! k = None).
Proof.
  intros path Hc Hmeta.
  eexists _, _, _. split.
  - unfold identityEntityAliasUpdate. hstep. fold path. rewrite Hc. hstep.
    do 3 (rewrite overlayIfOk_eq; hstep). rewrite Hmeta. hstep.
    reflexivity.
  - match goal with
    | |- (forall k, In k ?keys -> ?data !! k = Some (@?rhs k)) /\ _ =>
        assert (forall k, In k keys -> data !! k = Some (rhs k)) as Hall
    end.
    { intros k Hk. simpl in Hk.
      destruct Hk as [<-|[<-|[<-|[]]]];
        destruct (GetOk d "name") as [v1 []], (GetOk d "mount_accessor") as [v2 []],
          (GetOk d "canonical_id") as [v3 []];
        cbn [fst snd]; simplify_map_eq; reflexivity. }
    split; [exact Hall|]. repeat split.
    + intros k v Hk Hv Hz. rewrite (Hall k Hk). unfold GetOk.
      rewrite Hv, Hz. reflexivity.
    + intros k v Hk Hv Hz. rewrite (Hall k Hk). unfold GetOk.
      rewrite Hv, Hz. reflexivity.
    + intros k Hk Hnone. rewrite (Hall k Hk). unfold GetOk.
      rewrite Hnone. reflexivity.
    + apply lookup_insert_eq.
    + intros k Hk. simpl in Hk.
      destruct (GetOk d "name") as [v1 []], (GetOk d "mount_accessor") as [v2 []],
        (GetOk d "canonical_id") as [v3 []]; cbn [fst snd];
        repeat (rewrite lookup_insert_ne by (intros <-; tauto));
        apply lookup_empty.
Qed.

(** The alias [a-2] of bob, updated with the name [robert] and new metadata:
    the payload has the new name and the new metadata, and the mount accessor
    and canonical id that the service had; Update then reads the alias again
    and succeeds. *)
Lemma alias_update_overlay_example :
  exists data d',
    exec identityEntityAliasUpdate aliasServer
      (aliasData "a-2" {[ "name" := VStr "robert";
                          "custom_metadata" := VMap {[ "team" := VStr "b" ]} ]})
    = ([Read "/identity/entity-alias/id/a-2";
        Write "/identity/entity-alias/id/a-2" data;
        Read "/identity/entity-alias/id/a-2"], Returned (None, d'))
    /\ data !! "name" = Some (VStr "robert")
    /\ data !! "mount_accessor" = Some (VStr "auth_1")
    /\ data !! "canonical_id" = Some (VStr "e1")
    /\ data !! "custom_metadata" = Some (VMap {[ "team" := VStr "b" ]}).
Proof.
  destruct (alias_update_overlay aliasServer
              (aliasData "a-2" {[ "name" := VStr "robert";
                                  "custom_metadata" := VMap {[ "team" := VStr "b" ]} ]})
              bobStored {[ "team" := VStr "b" ]})
    as (data & trace & o & E & _ & Hset & _ & Hkeep & Hmeta & _);
    [reflexivity | reflexivity |].
  pose proof E as E'. vm_compute in E'. injection E' as _ <- <-.
  eexists data, _. split; [exact E|].
  split; [|split; [|split]].
  - apply Hset; [cbn [In]; tauto | reflexivity | reflexivity].
  - apply (Hkeep "mount_accessor"); [cbn [In]; tauto | reflexivity].
  - apply (Hkeep "canonical_id"); [cbn [In]; tauto | reflexivity].
  - exact Hmeta.
Defined.

(** ** Writing a role *)


(** Up to the remote write: the payload holds, for each of the five payload
    attributes, the value that the resource data has for it, and nothing for
    an attribute that the resource data does not have. *)
Lemma role_write_request (c : client) (d : ResourceData) (backend name : string) :
  Get d "name" = VStr name ->
  terraformCloudSecretBackendRoleGetBackend d = Ret (backend, d) ->
  backend <> EmptyString ->
  exists (payload : gmap string value) (trace : list request)
         (o : outcome (option error * ResourceData)),
    exec terraformCloudSecretBackendRoleWrite c d
      = (Write (terraformCloudSecretBackendRolePath backend name) payload :: trace, o)
    /\ (forall k, In k rolePayloadKeys -> payload !! k = fields d !! k)
    /\ (forall k, ~ In k rolePayloadKeys -> payload !! k = None).
Proof.
  intros Hname Hbackend Hne.
  eexists _, _, _. split.
  - unfold terraformCloudSecretBackendRoleWrite. hstep.
    rewrite Hname. hstep. rewrite Hbackend. hstep.
    apply String.eqb_neq in Hne. rewrite Hne.
    do 5 (rewrite putIfExists_eq; hstep).
    reflexivity.
  - split.
    + intros k Hk. unfold rolePayloadKeys in Hk. simpl in Hk.
      destruct Hk as [<-|[<-|[<-|[<-|[<-|[]]]]]];
        destruct (fields d !! "max_ttl"), (fields d !! "ttl"),
          (fields d !! "organization"), (fields d !! "team_id"),
          (fields d !! "user_id"); simplify_map_eq; reflexivity.
    + intros k Hk. unfold rolePayloadKeys in Hk. simpl in Hk.
      destruct (fields d !! "max_ttl"), (fields d !! "ttl"),
        (fields d !! "organization"), (fields d !! "team_id"),
        (fields d !! "user_id");
        repeat (rewrite lookup_insert_ne by (intros <-; tauto));
        apply lookup_empty.
Qed.

(** C5 (as stated, refuted).  With the name [admin], the backend [tfc] and
    [ttl] set to 0, the payload of the write has [ttl] with the value 0. *)
Lemma role_write_zero_ttl_is_sent :
  ~ (forall (c : client) (d : ResourceData) (path : string)
            (payload : gmap string value) (trace : list request)
            (o : outcome (option error * ResourceData)),
       Get d "ttl" = VInt 0 ->
       exec terraformCloudSecretBackendRoleWrite c d
         = (Write path payload :: trace, o) ->
       payload !! "ttl" = None).
Proof.
  intros H.
  pose (d := roleData EmptyString
               {[ "name" := VStr "admin"; "backend" := VStr "tfc";
                  "ttl" := VInt 0 ]}).
  specialize (H nothing d "tfc/role/admin" {[ "ttl" := VInt 0 ]}
                [Read "tfc/role/admin"]
                (Returned (Some "resource not found", SetId d "tfc/role/admin"))).
  assert (({[ "ttl" := VInt 0 ]} : gmap string value) !! "ttl" = None) as E
    by (apply H; vm_compute; reflexivity).
  vm_compute in E. discriminate E.
Qed.

(** C5 (amended).  The write of Create and Update carries [ttl] exactly when
    the resource data has the attribute, and then with its value, 0
    included; the same holds for [max_ttl].  Each is left out only when the
    resource data does not have the attribute. *)
Theorem role_write_ttl (c : client) (d : ResourceData) (backend name : string) :
  Get d "name" = VStr name ->
  terraformCloudSecretBackendRoleGetBackend d = Ret (backend, d) ->
  backend <> EmptyString ->
  exists (payload : gmap string value) (trace : list request)
         (o : outcome (option error * ResourceData)),
    exec terraformCloudSecretBackendRoleWrite c d
      = (Write (terraformCloudSecretBackendRolePath backend name) payload :: trace, o)
    /\ payload !! "ttl" = fields d !! "ttl"
    /\ payload !! "max_ttl" = fields d !! "max_ttl".
Proof.
  intros Hname Hbackend Hne.
  destruct (role_write_request c d backend name Hname Hbackend Hne)
    as (payload & trace & o & E & Hin & _).
  exists payload, trace, o. split; [exact E|].
  split; apply Hin; unfold rolePayloadKeys; simpl; tauto.
Qed.

(** With [ttl = 300] and [max_ttl = 0] the payload has both. *)
Lemma role_write_ttl_example :
  exists payload trace o,
    exec terraformCloudSecretBackendRoleWrite nothing
      (roleData EmptyString
         {[ "name" := VStr "admin"; "backend" := VStr "tfc/";
            "ttl" := VInt 300; "max_ttl" := VInt 0 ]})
    = (Write "tfc/role/admin" payload :: trace, o)
    /\ payload !! "ttl" = Some (VInt 300)
    /\ payload !! "max_ttl" = Some (VInt 0).
Proof.
  destruct (role_write_ttl nothing
              (roleData EmptyString
                 {[ "name" := VStr "admin"; "backend" := VStr "tfc/";
                    "ttl" := VInt 300; "max_ttl" := VInt 0 ]})
              "tfc/" "admin")
    as (payload & trace & o & E & Httl & Hmax);
    [reflexivity | reflexivity | discriminate |].
  exists payload, trace, o. split; [exact E|].
  rewrite Httl, Hmax. split; reflexivity.
Defined.

(** ** Backend and path of a role *)

Lemma validate_skip (k : string) (s : Schema)
    (rest : list (string * Schema)) (config : gmap string value) :
  ConflictsWith s = [] ->
  (Required s = true -> is_Some (config !! k)) ->
  validate ((k, s) :: rest) config = validate rest config.
Proof.
  intros H Hreq. cbn [validate]. unfold validateField, validateConflictingAttributes.
  rewrite H. cbn [List.find].
  destruct (config !! k) as [v|]; [reflexivity|].
  destruct (Required s); [|reflexivity].
  destruct (Hreq eq_refl) as [v Hv]. discriminate Hv.
Qed.

Lemma validate_cons (k : string) (s : Schema)
    (rest : list (string * Schema)) (config : gmap string value) :
  validate ((k, s) :: rest) config
  = match validateField k s config with
    | Some e => e :: validate rest config
    | None => validate rest config
    end.
Proof. reflexivity. Qed.

Lemma role_validate (config : gmap string value) :
  is_Some (config !! "name") -> is_Some (config !! "organization") ->
  validate terraformCloudSecretBackendRoleSchema config
  = match config !! "path", config !! "backend" with
    | Some _, Some _ =>
        [quote "path" ++ ": conflicts with backend";
         quote "backend" ++ ": conflicts with path"]
    | _, _ => []
    end.
Proof.
  intros Hname Horg. unfold terraformCloudSecretBackendRoleSchema.
  rewrite validate_skip by (try reflexivity; intros _; exact Hname).
  rewrite 2 validate_cons.
  rewrite validate_skip by (try reflexivity; intros _; exact Horg).
  repeat (rewrite validate_skip by (try reflexivity; intros [=])).
  unfold validateField, validateConflictingAttributes.
  cbn [ConflictsWith Required attr List.find validate].
  destruct (config !! "path"), (config !! "backend"); reflexivity.
Qed.

(** A configuration without a required attribute is refused. *)
Lemma validate_required (sch : list (string * Schema))
    (config : gmap string value) (k : string) (s : Schema) :
  In (k, s) sch -> Required s = true -> config !! k = None ->
  In (quote k ++ ": required field is not set") (validate sch config).
Proof.
  intros Hin Hreq Hk. induction sch as [|[k' s'] rest IH]; [destruct Hin|].
  cbn [validate]. destruct Hin as [[= -> ->]|Hin].
  - unfold validateField. rewrite Hk, Hreq. left. reflexivity.
  - destruct (validateField k' s' config); [right|]; apply IH; exact Hin.
Qed.

Lemma plannedFields_lookup (sch : list (string * Schema))
    (config : gmap string value) (k : string) (s : Schema) :
  lookupSchema sch k = Some s ->
  plannedFields sch config !! k
  = match plannedValue s k config with
    | Some v => if rendered v then Some v else None
    | None => None
    end.
Proof.
  induction sch as [|[k' s'] rest IH]; [discriminate|].
  cbn [lookupSchema plannedFields].
  destruct (String.eqb k' k) eqn:E.
  - apply String.eqb_eq in E. subst k'. intros [= ->].
    destruct (plannedValue s k config) as [v|]; [destruct (rendered v)|].
    + apply lookup_insert_eq.
    + apply lookup_delete_eq.
    + apply lookup_delete_eq.
  - apply String.eqb_neq in E. intros H. rewrite <- (IH H).
    destruct (plannedValue s' k' config) as [v|]; [destruct (rendered v)|].
    + apply lookup_insert_ne. exact E.
    + apply lookup_delete_ne. exact E.
    + apply lookup_delete_ne. exact E.
Qed.

Lemma planned_lookup (sch : list (string * Schema)) (id : string)
    (config : gmap string value) (k : string) (s : Schema) :
  lookupSchema sch k = Some s ->
  fields (planned sch id config) !! k
  = match plannedValue s k config with
    | Some v => if rendered v then Some v else None
    | None => None
    end.
Proof. apply plannedFields_lookup. Qed.

(** An attribute without a default that the planned data has is the
    configured one. *)
Lemma planned_lookup_Some (sch : list (string * Schema)) (id : string)
    (config : gmap string value) (k : string) (s : Schema) (v : value) :
  lookupSchema sch k = Some s -> Default s = None ->
  fields (planned sch id config) !! k = Some v -> config !! k = Some v.
Proof.
  intros Hs Hd. rewrite (planned_lookup sch id config k s Hs).
  unfold plannedValue. rewrite Hd.
  destruct (config !! k) as [w|]; [|discriminate].
  destruct (rendered w); [|discriminate]. intros [= ->]. reflexivity.
Qed.

Lemma planned_lookup_None (sch : list (string * Schema)) (id : string)
    (config : gmap string value) (k : string) (s : Schema) :
  lookupSchema sch k = Some s -> Default s = None -> config !! k = None ->
  fields (planned sch id config) !! k = None.
Proof.
  intros Hs Hd Hk. rewrite (planned_lookup sch id config k s Hs).
  unfold plannedValue. rewrite Hk, Hd. reflexivity.
Qed.

Lemma planned_lookup_string (sch : list (string * Schema)) (id : string)
    (config : gmap string value) (k : string) (s : Schema) (x : string) :
  lookupSchema sch k = Some s -> config !! k = Some (VStr x) ->
  x <> EmptyString ->
  fields (planned sch id config) !! k = Some (VStr x).
Proof.
  intros Hs Hk Hne. rewrite (planned_lookup sch id config k s Hs).
  unfold plannedValue. rewrite Hk. cbn [rendered].
  apply String.eqb_neq in Hne. rewrite Hne. reflexivity.
Qed.

(** [Get] on the planned data gives the configured string, empty or not. *)
Lemma planned_Get_string (sch : list (string * Schema)) (id : string)
    (config : gmap string value) (k : string) (s : Schema) (x : string) :
  lookupSchema sch k = Some s -> Type_ s = TypeString ->
  config !! k = Some (VStr x) ->
  Get (planned sch id config) k = VStr x.
Proof.
  intros Hs Ht Hk. unfold Get. rewrite (planned_lookup sch id config k s Hs).
  unfold plannedValue. rewrite Hk. cbn [rendered].
  destruct (String.eqb x EmptyString) eqn:E; [|reflexivity].
  apply String.eqb_eq in E. subst x. cbn [negb].
  unfold zeroOf. cbn [schema planned]. rewrite Hs, Ht. reflexivity.
Qed.

(** A planned integer attribute is always set: to the configured number or
    to the default. *)
Lemma planned_lookup_int (sch : list (string * Schema)) (id : string)
    (config : gmap string value) (k : string) (s : Schema) (z0 : Z) :
  lookupSchema sch k = Some s -> Default s = Some (VInt z0) ->
  fields (planned sch id config) !! k
  = match config !! k with
    | Some v => if rendered v then Some v else None
    | None => Some (VInt z0)
    end.
Proof.
  intros Hs Hd. rewrite (planned_lookup sch id config k s Hs).
  unfold plannedValue. rewrite Hd.
  destruct (config !! k) as [v|]; reflexivity.
Qed.

Lemma run_ioBind_Ret {A B} (c : client) (g : A -> B) (p : io A) (log : list request) :
  run c log (ioBind p (fun a => Ret (g a)))
  = (fst (run c log p),
     match snd (run c log p) with
     | Returned a => Returned (g a)
     | Panicked => Panicked
     end).
Proof.
  revert log. induction p as [a| |r k IH]; intros log; try reflexivity.
  cbn [ioBind run fst snd]. rewrite IH. reflexivity.
Qed.

Lemma getBackend_eq (d : ResourceData) :
  terraformCloudSecretBackendRoleGetBackend d
  = match GetOk d "backend" with
    | (v, true) => match v with VStr s => Ret (s, d) | _ => Panic end
    | (_, false) =>
        match GetOk d "path" with
        | (v, true) => match v with VStr s => Ret (s, d) | _ => Panic end
        | (_, false) => Ret (EmptyString, d)
        end
    end.
Proof.
  unfold terraformCloudSecretBackendRoleGetBackend. hstep.
  destruct (GetOk d "backend") as [v []].
  - destruct v; reflexivity.
  - hstep. destruct (GetOk d "path") as [v' []]; [destruct v'|]; reflexivity.
Qed.

Lemma GetOk_true (d : ResourceData) (k : string) (v : value) :
  GetOk d k = (v, true) -> fields d !! k = Some v /\ isZero v = false.
Proof.
  unfold GetOk. destruct (fields d !! k) as [w|]; [|discriminate].
  intros [= <- H]. split; [reflexivity|]. apply negb_true_iff. exact H.
Qed.

Lemma getBackend_cases (d : ResourceData) :
  terraformCloudSecretBackendRoleGetBackend d = Panic
  \/ terraformCloudSecretBackendRoleGetBackend d = Ret (EmptyString, d)
  \/ exists b,
       b <> EmptyString
       /\ terraformCloudSecretBackendRoleGetBackend d = Ret (b, d)
       /\ (GetOk d "backend" = (VStr b, true)
           \/ snd (GetOk d "backend") = false /\ GetOk d "path" = (VStr b, true)).
Proof.
  rewrite getBackend_eq.
  assert (forall k v, GetOk d k = (v, true) -> isZero v = false) as Hz
    by (intros k v H; apply (GetOk_true d k v H)).
  destruct (GetOk d "backend") as [v []] eqn:Eb.
  - destruct v as [|s|z|m|l]; try (left; reflexivity).
    right; right. exists s. split; [|split; [reflexivity|left; reflexivity]].
    apply Hz in Eb. simpl in Eb. apply String.eqb_neq. exact Eb.
  - destruct (GetOk d "path") as [v' []] eqn:Ep.
    + destruct v' as [|s|z|m|l]; try (left; reflexivity).
      right; right. exists s. split; [|split; [reflexivity|right; split; reflexivity]].
      apply Hz in Ep. simpl in Ep. apply String.eqb_neq. exact Ep.
    + right; left. reflexivity.
Qed.

Lemma role_write_no_backend (c : client) (d : ResourceData) (name : string) :
  Get d "name" = VStr name ->
  terraformCloudSecretBackendRoleGetBackend d = Ret (EmptyString, d) ->
  exec terraformCloudSecretBackendRoleWrite c d
  = ([], Returned
           (Some ("No backend specified for Terraform Cloud secret backend role "
                    ++ name), d)).
Proof.
  intros Hname Hb. unfold terraformCloudSecretBackendRoleWrite. hstep.
  rewrite Hname. hstep. rewrite Hb. reflexivity.
Qed.

Lemma role_write_panic (c : client) (d : ResourceData) (name : string) :
  Get d "name" = VStr name ->
  terraformCloudSecretBackendRoleGetBackend d = Panic ->
  exec terraformCloudSecretBackendRoleWrite c d = ([], Panicked).
Proof.
  intros Hname Hb. unfold terraformCloudSecretBackendRoleWrite. hstep.
  rewrite Hname. hstep. rewrite Hb. reflexivity.
Qed.

(** Without [name] or [organization] the configuration is refused and the
    handler does not run. *)
Lemma role_apply_requires (c : client) (id : string)
    (config : gmap string value) (k : string) :
  In k ["name"; "organization"] -> config !! k = None ->
  exists errs,
    run c [] (terraformCloudSecretBackendRoleApply id config)
    = ([], Returned (Invalid errs))
    /\ In (quote k ++ ": required field is not set") errs.
Proof.
  intros Hk Hnone. unfold terraformCloudSecretBackendRoleApply.
  assert (In (quote k ++ ": required field is not set")
            (validate terraformCloudSecretBackendRoleSchema config)) as Hin.
  { destruct Hk as [<-|[<-|[]]].
    - apply (validate_required _ _ _ (attr TypeString true false true [] None));
        [cbn; tauto | reflexivity | exact Hnone].
    - apply (validate_required _ _ _ (attr TypeString true false false [] None));
        [cbn; tauto | reflexivity | exact Hnone]. }
  destruct (validate terraformCloudSecretBackendRoleSchema config) as [|e errs];
    [destruct Hin|].
  exists (e :: errs). split; [reflexivity | exact Hin].
Qed.

(** C6.  Create and Update of a role, run on a configuration that fits the
    schema and has the required [name] and [organization]: (1) with both
    [backend] and [path] in the configuration it is refused with conflict
    errors and no request is made; (2) with neither, the handler returns the
    error [No backend specified ... <name>] and no request is made; (3) a
    request is made only when exactly one of the two is in the configuration,
    and the first request is then the write to the role path of that backend;
    (4) with exactly one of them, a non-empty string, the write is made. *)
Theorem role_apply_backend_path (c : client) (id : string)
    (config : gmap string value) (name : string) :
  fitsSchema terraformCloudSecretBackendRoleSchema config = true ->
  config !! "name" = Some (VStr name) ->
  is_Some (config !! "organization") ->
  (is_Some (config !! "backend") -> is_Some (config !! "path") ->
   exists errs,
     run c [] (terraformCloudSecretBackendRoleApply id config)
       = ([], Returned (Invalid errs))
     /\ In (quote "path" ++ ": conflicts with backend") errs
     /\ In (quote "backend" ++ ": conflicts with path") errs)
  /\ (config !! "backend" = None -> config !! "path" = None ->
      run c [] (terraformCloudSecretBackendRoleApply id config)
      = ([], Returned
               (Handled
                  (Some ("No backend specified for Terraform Cloud secret backend role "
                           ++ name))
                  (planned terraformCloudSecretBackendRoleSchema id config))))
  /\ (forall r trace o,
        run c [] (terraformCloudSecretBackendRoleApply id config) = (r :: trace, o) ->
        exists backend payload,
          r = Write (terraformCloudSecretBackendRolePath backend name) payload
          /\ backend <> EmptyString
          /\ (config !! "backend" = Some (VStr backend) /\ config !! "path" = None
              \/ config !! "backend" = None /\ config !! "path" = Some (VStr backend)))
  /\ (forall backend,
        backend <> EmptyString ->
        config !! "backend" = Some (VStr backend) /\ config !! "path" = None
        \/ config !! "backend" = None /\ config !! "path" = Some (VStr backend) ->
        exists payload trace o,
          run c [] (terraformCloudSecretBackendRoleApply id config)
          = (Write (terraformCloudSecretBackendRolePath backend name) payload
               :: trace, o)).
Proof.
  intros _ Hname Horg.
  set (d := planned terraformCloudSecretBackendRoleSchema id config).
  assert (Get d "name" = VStr name) as HGet.
  { apply (planned_Get_string _ _ _ _ (attr TypeString true false true [] None));
      [reflexivity | reflexivity | exact Hname]. }
  assert (forall v, fields d !! "backend" = Some v -> config !! "backend" = Some v)
    as Hfb
    by (intros v; apply (planned_lookup_Some _ _ _ _
                           (attr TypeString false true true ["path"] None));
        reflexivity).
  assert (forall v, fields d !! "path" = Some v -> config !! "path" = Some v)
    as Hfp
    by (intros v; apply (planned_lookup_Some _ _ _ _
                           (attr TypeString false true false ["backend"] None));
        reflexivity).
  assert (config !! "backend" = None -> fields d !! "backend" = None) as Hnb
    by (apply (planned_lookup_None _ _ _ _
                 (attr TypeString false true true ["path"] None)); reflexivity).
  assert (config !! "path" = None -> fields d !! "path" = None) as Hnp
    by (apply (planned_lookup_None _ _ _ _
                 (attr TypeString false true false ["backend"] None)); reflexivity).
  assert (forall backend, backend <> EmptyString ->
            config !! "backend" = Some (VStr backend) /\ config !! "path" = None
            \/ config !! "backend" = None /\ config !! "path" = Some (VStr backend) ->
            terraformCloudSecretBackendRoleGetBackend d = Ret (backend, d)) as Hone.
  { intros backend Hne Hcase. rewrite getBackend_eq. unfold GetOk.
    destruct Hcase as [[Hb Hp]|[Hb Hp]].
    - replace (fields d !! "backend") with (Some (VStr backend))
        by (symmetry;
            apply (planned_lookup_string _ _ _ _
                     (attr TypeString false true true ["path"] None));
            [reflexivity | exact Hb | exact Hne]).
      cbn [isZero negb]. apply String.eqb_neq in Hne. rewrite Hne. reflexivity.
    - rewrite (Hnb Hb).
      replace (fields d !! "path") with (Some (VStr backend))
        by (symmetry;
            apply (planned_lookup_string _ _ _ _
                     (attr TypeString false true false ["backend"] None));
            [reflexivity | exact Hp | exact Hne]).
      cbn [isZero negb]. apply String.eqb_neq in Hne. rewrite Hne. reflexivity. }
  unfold terraformCloudSecretBackendRoleApply.
  rewrite (role_validate config) by (try exact Horg; eexists; exact Hname).
  fold d. repeat split.
  - intros [vb Hb] [vp Hp]. rewrite Hb, Hp. eexists. split; [reflexivity|].
    simpl. tauto.
  - intros Hb Hp. rewrite Hb, Hp.
    rewrite (run_ioBind_Ret c (fun r => Handled (fst r) (snd r))).
    fold (exec terraformCloudSecretBackendRoleWrite c d).
    rewrite (role_write_no_backend c d name HGet); [reflexivity|].
    rewrite getBackend_eq. unfold GetOk. rewrite (Hnb Hb), (Hnp Hp). reflexivity.
  - intros r trace o Hrun.
    destruct (config !! "path") as [vp|] eqn:Hp, (config !! "backend") as [vb|] eqn:Hb;
      try discriminate Hrun;
      rewrite (run_ioBind_Ret c (fun r => Handled (fst r) (snd r))) in Hrun;
      fold (exec terraformCloudSecretBackendRoleWrite c d) in Hrun;
      (destruct (getBackend_cases d) as [HP|[HE|(b & Hne & HR & Hsrc)]];
       [ rewrite (role_write_panic c d name HGet HP) in Hrun; discriminate Hrun
       | rewrite (role_write_no_backend c d name HGet HE) in Hrun; discriminate Hrun
       | ]);
      destruct (role_write_request c d b name HGet HR Hne)
        as (payload & trace' & o' & E & _);
      rewrite E in Hrun; injection Hrun as <- _ _;
      exists b, payload; (split; [reflexivity|]); (split; [exact Hne|]);
      destruct Hsrc as [Hsrc|[_ Hsrc]];
      apply GetOk_true in Hsrc as [Hsrc _];
      first [apply Hfb in Hsrc | apply Hfp in Hsrc];
      try discriminate Hsrc; injection Hsrc as ->; tauto.
  - intros backend Hne Hcase.
    destruct (role_write_request c d backend name HGet (Hone backend Hne Hcase) Hne)
      as (payload & trace & o & E & _).
    destruct Hcase as [[-> ->]|[-> ->]];
      rewrite (run_ioBind_Ret c (fun r => Handled (fst r) (snd r)));
      fold (exec terraformCloudSecretBackendRoleWrite c d); rewrite E;
      eexists _, _, _; reflexivity.
Qed.

(** With [name] and [organization] only, the handler reports that no backend
    is specified; with [backend] too, the role is written under it. *)
Lemma role_apply_backend_path_example :
  run nothing [] (terraformCloudSecretBackendRoleApply EmptyString
                    {[ "name" := VStr "admin"; "organization" := VStr "acme" ]})
  = ([], Returned
           (Handled
              (Some "No backend specified for Terraform Cloud secret backend role admin")
              (planned terraformCloudSecretBackendRoleSchema EmptyString
                 {[ "name" := VStr "admin"; "organization" := VStr "acme" ]})))
  /\ exists payload trace o,
       run nothing [] (terraformCloudSecretBackendRoleApply EmptyString
                         {[ "name" := VStr "admin"; "organization" := VStr "acme";
                            "backend" := VStr "tfc" ]})
       = (Write "tfc/role/admin" payload :: trace, o).
Proof.
  split.
  - destruct (role_apply_backend_path nothing EmptyString
                {[ "name" := VStr "admin"; "organization" := VStr "acme" ]} "admin")
      as (_ & H & _);
      [ vm_compute; reflexivity | reflexivity | eexists; reflexivity | ].
    apply H; reflexivity.
  - destruct (role_apply_backend_path nothing EmptyString
                {[ "name" := VStr "admin"; "organization" := VStr "acme";
                   "backend" := VStr "tfc" ]} "admin")
      as (_ & _ & _ & H);
      [ vm_compute; reflexivity | reflexivity | eexists; reflexivity | ].
    apply (H "tfc"); [discriminate | left; split; reflexivity].
Defined.

(** ** Creating an alias that the service merged *)

Lemma quoteBody_plain (s : string) : plain s = true -> quoteBody s = s.
Proof.
  induction s as [|c s IH]; [reflexivity|].
  cbn [plain quoteBody]. intros H.
  apply andb_true_iff in H as [H Hs].
  apply andb_true_iff in H as [H H92].
  apply andb_true_iff in H as [H H34].
  rewrite (IH Hs). unfold quoteByte.
  apply negb_true_iff in H34, H92. rewrite H34, H92, H. reflexivity.
Qed.

Lemma quote_plain (s : string) : plain s = true -> quote s = dquote ++ s ++ dquote.
Proof. intros H. unfold quote. rewrite (quoteBody_plain s H). reflexivity. Qed.


Lemma findAliasLoop_none (aliases : list value) (name mountAccessor : string) :
  forallb (noMatch name mountAccessor) aliases = true ->
  findAliasLoop aliases name mountAccessor = Some None.
Proof.
  induction aliases as [|v aliases IH]; [reflexivity|].
  cbn [forallb]. intros H. apply andb_true_iff in H as [Hv H].
  unfold noMatch in Hv. apply andb_true_iff in Hv as [Hmap Hv].
  destruct v as [| | |alias|]; try discriminate Hmap.
  apply negb_true_iff in Hv. cbn [aliasMatches] in Hv.
  cbn [findAliasLoop assertMap]. rewrite Hv. exact (IH H).
Qed.

Lemma findAliasLoop_first (pre post : list value) (alias : gmap string value)
    (name mountAccessor aliasID : string) :
  forallb (noMatch name mountAccessor) pre = true ->
  aliasMatches name mountAccessor (VMap alias) = true ->
  mapIndex alias "id" = VStr aliasID ->
  findAliasLoop (pre ++ VMap alias :: post)%list name mountAccessor
  = Some (Some aliasID).
Proof.
  intros Hpre Hm Hid. induction pre as [|v pre IH].
  - cbn [app findAliasLoop assertMap]. cbn [aliasMatches] in Hm.
    rewrite Hm, Hid. reflexivity.
  - cbn [forallb] in Hpre. apply andb_true_iff in Hpre as [Hv Hpre].
    unfold noMatch in Hv. apply andb_true_iff in Hv as [Hmap Hv].
    destruct v as [| | |a|]; try discriminate Hmap.
    apply negb_true_iff in Hv. cbn [aliasMatches] in Hv.
    cbn [app findAliasLoop assertMap]. rewrite Hv. exact (IH Hpre).
Qed.




(** C3.  Create writes the alias; when the write returns neither a response
    nor an error, Create reads the entity at [canonical_id] and returns an
    error, leaving the resource data as it was.  (1) When the entity's
    aliases, all of them maps, have a first entry whose name and mount
    accessor are those of the request, the error text carries the [%q]
    rendering of that entry's id, so it contains the id itself when the id
    is plain.  (2) When the read of the entity fails, or finds no entity, or
    no entry of the entity's aliases matches, the error text ends with the
    fallback [Unable to determine alias id.]. *)
Theorem alias_create_merge (c : client) (d : ResourceData)
    (name mountAccessor canonicalID : string) (meta : gmap string value) :
  Get d "name" = VStr name ->
  Get d "mount_accessor" = VStr mountAccessor ->
  Get d "canonical_id" = VStr canonicalID ->
  Get d "custom_metadata" = VMap meta ->
  let w := Write identityEntityAliasPath
             (aliasCreateData name mountAccessor canonicalID meta) in
  let r := Read (identityEntityIDPath canonicalID) in
  c [] w = (None, None) ->
  (forall entity pre alias post aliasID,
      c [w] r = (Some entity, None) ->
      mapIndex (Data entity) "aliases" = VList (pre ++ VMap alias :: post) ->
      forallb (noMatch name mountAccessor) pre = true ->
      aliasMatches name mountAccessor (VMap alias) = true ->
      mapIndex alias "id" = VStr aliasID ->
      exec identityEntityAliasCreate c d
        = ([w; r], Returned (Some (mergedWithID name aliasID), d))
      /\ (plain aliasID = true -> contains (mergedWithID name aliasID) aliasID))
  /\ (forall resp err,
        c [w] r = (resp, err) ->
        err <> None
        \/ resp = None
        \/ (exists entity aliases,
              resp = Some entity
              /\ mapIndex (Data entity) "aliases" = VList aliases
              /\ forallb (noMatch name mountAccessor) aliases = true) ->
        exec identityEntityAliasCreate c d
          = ([w; r], Returned (Some (mergedUnknownID name), d))).
Proof.
  intros Hn Hm Hc Hmeta w r Hw.
  assert (forall resp err,
            c [w] r = (resp, err) ->
            exec identityEntityAliasCreate c d
            = ([w; r],
               match err, resp with
               | Some _, _ | None, None => Returned (Some (mergedUnknownID name), d)
               | None, Some entity =>
                   match mapIndex (Data entity) "aliases" with
                   | VList aliases =>
                       match findAliasLoop aliases name mountAccessor with
                       | Some (Some aliasID) =>
                           Returned (Some (mergedWithID name aliasID), d)
                       | Some None => Returned (Some (mergedUnknownID name), d)
                       | None => Panicked
                       end
                   | _ => Panicked
                   end
               end)) as Hexec.
  { intros resp err Hr.
    unfold identityEntityAliasCreate, findAliasID. hstep.
    rewrite Hn. hstep. rewrite Hm. hstep. rewrite Hc. hstep. rewrite Hmeta. hstep.
    fold (aliasCreateData name mountAccessor canonicalID meta). fold w.
    rewrite Hw. hstep. fold r. cbn [app]. rewrite Hr.
    destruct err as [e|]; [reflexivity|].
    destruct resp as [entity|]; [|reflexivity].
    hstep.
    destruct (mapIndex (Data entity) "aliases") as [| | | |aliases]; try reflexivity.
    hstep.
    destruct (findAliasLoop aliases name mountAccessor) as [[aliasID|]|];
      reflexivity. }
  split.
  - intros entity pre alias post aliasID Hr Hal Hpre Hmatch Hid. split.
    + rewrite (Hexec _ _ Hr), Hal.
      rewrite (findAliasLoop_first pre post alias name mountAccessor aliasID
                 Hpre Hmatch Hid).
      reflexivity.
    + intros Hplain. unfold mergedWithID, contains.
      rewrite (quote_plain aliasID Hplain).
      exists ("IdentityEntityAlias " ++ quote name ++ " already exists. "
                ++ "Alias resource ID " ++ dquote),
        (dquote ++ " may be imported.").
      rewrite !append_assoc. reflexivity.
  - intros resp err Hr Hcase. rewrite (Hexec _ _ Hr).
    destruct Hcase as [He|[->|(entity & aliases & -> & Hal & Hno)]].
    + destruct err; [reflexivity | congruence].
    + destruct err; reflexivity.
    + destruct err; [reflexivity|].
      rewrite Hal, (findAliasLoop_none aliases name mountAccessor Hno).
      reflexivity.
Qed.

Lemma alias_create_merge_example :
  exec identityEntityAliasCreate mergingClient bobAlias
  = ([Write "/identity/entity-alias" (aliasCreateData "bob" "auth_1" "e1" ∅);
      Read (identityEntityIDPath "e1")],
     Returned
       (Some ("IdentityEntityAlias " ++ dquote ++ "bob" ++ dquote
                ++ " already exists. Alias resource ID " ++ dquote ++ "a-2"
                ++ dquote ++ " may be imported."),
        bobAlias)).
Proof.
  destruct (alias_create_merge mergingClient bobAlias "bob" "auth_1" "e1" ∅)
    as [Hfound _];
    [reflexivity | reflexivity | reflexivity | reflexivity | reflexivity |].
  apply (Hfound entityE1 [VMap aliceAlias] bobRemoteAlias [] "a-2"); reflexivity.
Defined.

(** * Further properties of the two resources *)

(** ** Which ids parse as role paths *)

(** A run of the common shape [^.+/role/.+$] of the two patterns. *)
Lemma plusAny_role_inv {R : Type} (path : string)
    (K : nat -> string -> nat -> option R) (r : R) :
  (forall a b c, K a b c <> None) ->
  plusAny path 0
    (fun p rest =>
       match stripPrefix "/role/" rest with
       | Some rest' =>
           plusAny rest' (p + 6)
             (fun p' rest'' =>
                match rest'' with
                | EmptyString => K p rest' p'
                | String _ _ => None
                end)
       | None => None
       end)
  = Some r ->
  exists u w,
    path = u ++ "/role/" ++ w
    /\ u <> EmptyString /\ w <> EmptyString
    /\ noNewline u = true /\ noNewline w = true
    /\ K (String.length u) w (String.length u + 6 + String.length w) = Some r
    /\ (forall u' w', path = u' ++ "/role/" ++ w' ->
                      String.length u < String.length u' ->
                      noNewline u' = true -> noNewline w' = true ->
                      w' = EmptyString).
Proof.
  intros HK Hplus.
  apply plusAny_Some_inv in Hplus as (u & v & -> & Hu & Hn & Hk & Hmax).
  cbn beta in Hk.
  destruct (stripPrefix "/role/" v) as [w|] eqn:Hv; [|discriminate Hk].
  apply stripPrefix_Some in Hv as ->.
  rewrite plusAny_EndText in Hk.
  destruct w as [|c w]; [discriminate Hk|].
  destruct (noNewline (String c w)) eqn:Hw; [|discriminate Hk].
  exists u, (String c w). cbn [Nat.add] in Hk.
  repeat split; try assumption; try discriminate.
  intros u' w' E L Hn' Hw'.
  specialize (Hmax u' ("/role/" ++ w') E L Hn'). cbn beta in Hmax.
  rewrite stripPrefix_append, plusAny_EndText in Hmax.
  destruct w' as [|c' w']; [reflexivity|].
  rewrite Hw' in Hmax. exfalso. exact (HK _ _ _ Hmax).
Qed.

(** The common shape fails exactly on the paths that have no split. *)
Lemma plusAny_role_None {R : Type} (path : string)
    (K : nat -> string -> nat -> option R) :
  (forall a b c, K a b c <> None) ->
  plusAny path 0
    (fun p rest =>
       match stripPrefix "/role/" rest with
       | Some rest' =>
           plusAny rest' (p + 6)
             (fun p' rest'' =>
                match rest'' with
                | EmptyString => K p rest' p'
                | String _ _ => None
                end)
       | None => None
       end)
  = None ->
  ~ roleSplit path.
Proof.
  intros HK Hplus (u & w & -> & Hu & Hw & Hnu & Hnw).
  pose proof (plusAny_None_inv _ _ _ Hplus u ("/role/" ++ w) eq_refl Hu Hnu) as H.
  cbn beta in H. rewrite stripPrefix_append, plusAny_EndText in H.
  destruct w as [|c w]; [congruence|].
  rewrite Hnw in H. exact (HK _ _ _ H).
Qed.

Lemma backendRegex_find_cases (path : string) :
  (exists backend,
     findFrom terraformCloudSecretBackendRoleBackendFromPathRegex 0 path
       = Some [path; backend]
     /\ exists w,
          path = backend ++ "/role/" ++ w
          /\ backend <> EmptyString /\ w <> EmptyString
          /\ noNewline backend = true /\ noNewline w = true
          /\ (forall u' w', path = u' ++ "/role/" ++ w' ->
                            String.length backend < String.length u' ->
                            noNewline u' = true -> noNewline w' = true ->
                            w' = EmptyString))
  \/ (findFrom terraformCloudSecretBackendRoleBackendFromPathRegex 0 path = None
      /\ ~ roleSplit path).
Proof.
  rewrite findFrom_unfold.
  unfold terraformCloudSecretBackendRoleBackendFromPathRegex.
  cbn [rmatch Nat.eqb String.length Nat.add app].
  destruct (plusAny path 0 _) as [m|] eqn:Hplus.
  - left.
    apply plusAny_role_inv in Hplus
      as (u & w & E & Hu & Hw & Hnu & Hnw & HK & Hmax); [|discriminate].
    exists u. cbn beta in HK. injection HK as <-.
    rewrite !Nat.sub_0_r. subst path.
    rewrite <- length_role_path, take_all, take_append.
    split; [reflexivity|]. exists w. repeat split; assumption.
  - right. apply plusAny_role_None in Hplus; [|discriminate].
    split; [|exact Hplus].
    destruct path as [|c path]; [reflexivity|]. apply findFrom_BeginText.
Qed.

Lemma nameRegex_find_cases (path : string) :
  (exists name,
     findFrom terraformCloudSecretBackendRoleNameFromPathRegex 0 path
       = Some [path; name]
     /\ exists u,
          path = u ++ "/role/" ++ name
          /\ u <> EmptyString /\ name <> EmptyString
          /\ noNewline u = true /\ noNewline name = true
          /\ (forall u' w', path = u' ++ "/role/" ++ w' ->
                            String.length u < String.length u' ->
                            noNewline u' = true -> noNewline w' = true ->
                            w' = EmptyString))
  \/ (findFrom terraformCloudSecretBackendRoleNameFromPathRegex 0 path = None
      /\ ~ roleSplit path).
Proof.
  rewrite findFrom_unfold.
  unfold terraformCloudSecretBackendRoleNameFromPathRegex.
  cbn [rmatch Nat.eqb String.length Nat.add app].
  destruct (plusAny path 0 _) as [m|] eqn:Hplus.
  - left.
    apply plusAny_role_inv in Hplus
      as (u & w & E & Hu & Hw & Hnu & Hnw & HK & Hmax); [|discriminate].
    exists w. cbn beta in HK. injection HK as <-.
    rewrite !Nat.sub_0_r. subst path.
    rewrite <- length_role_path, take_all, length_role_path.
    replace (String.length u + 6 + String.length w - (String.length u + 6))
      with (String.length w) by lia.
    rewrite take_all.
    split; [reflexivity|]. exists u. repeat split; assumption.
  - right. apply plusAny_role_None in Hplus; [|discriminate].
    split; [|exact Hplus].
    destruct path as [|c path]; [reflexivity|]. apply findFrom_BeginText.
Qed.

(** Two splits of one path that both take the longest possible prefix are the
    same split. *)
Lemma longest_split_unique (path u w u2 w2 : string) :
  path = u ++ "/role/" ++ w -> path = u2 ++ "/role/" ++ w2 ->
  w <> EmptyString -> w2 <> EmptyString ->
  noNewline u = true -> noNewline w = true ->
  noNewline u2 = true -> noNewline w2 = true ->
  (forall u' w', path = u' ++ "/role/" ++ w' ->
                 String.length u < String.length u' ->
                 noNewline u' = true -> noNewline w' = true -> w' = EmptyString) ->
  (forall u' w', path = u' ++ "/role/" ++ w' ->
                 String.length u2 < String.length u' ->
                 noNewline u' = true -> noNewline w' = true -> w' = EmptyString) ->
  u = u2 /\ w = w2.
Proof.
  intros E E2 Hw Hw2 Hnu Hnw Hnu2 Hnw2 Hmax Hmax2.
  assert (String.length u = String.length u2) as Hlen.
  { destruct (Nat.lt_trichotomy (String.length u) (String.length u2))
      as [L|[L|L]]; [|exact L|].
    - exfalso. apply Hw2. exact (Hmax u2 w2 E2 L Hnu2 Hnw2).
    - exfalso. apply Hw. exact (Hmax2 u w E L Hnu Hnw). }
  rewrite E in E2.
  destruct (append_eq_append u _ u2 _ E2) as (z & -> & Ez); [lia|].
  rewrite length_append in Hlen.
  destruct z as [|c z]; [|cbn [String.length] in Hlen; lia].
  rewrite append_nil_r. split; [reflexivity|].
  rewrite append_nil_l in Ez. exact (append_inv_head _ _ _ Ez).
Qed.

(** Every id either parses in both parsers, at one and the same split, or
    fails in both. *)
Lemma role_id_parse_split (path : string) :
  (exists backend name,
      terraformCloudSecretBackendRoleBackendFromPath path = (backend, None)
      /\ terraformCloudSecretBackendRoleNameFromPath path = (name, None)
      /\ path = backend ++ "/role/" ++ name
      /\ backend <> EmptyString /\ name <> EmptyString
      /\ roleSplit path)
  \/ (terraformCloudSecretBackendRoleBackendFromPath path
        = (EmptyString, Some "no backend found")
      /\ terraformCloudSecretBackendRoleNameFromPath path
        = (EmptyString, Some "no name found")
      /\ ~ roleSplit path).
Proof.
  unfold terraformCloudSecretBackendRoleBackendFromPath,
    terraformCloudSecretBackendRoleNameFromPath, MatchString, FindStringSubmatch.
  destruct (backendRegex_find_cases path)
    as [(backend & Hb & w & E & HB & Hw & HnB & Hnw & Hmax)|[Hb Hno]];
    destruct (nameRegex_find_cases path)
      as [(name & Hn & u & E' & Hu & HN & Hnu & HnN & Hmax')|[Hn Hno']];
    rewrite Hb, Hn; cbn [negb].
  - left. exists backend, name.
    destruct (longest_split_unique path backend w u name E E' Hw HN HnB Hnw
                Hnu HnN Hmax Hmax') as [<- <-].
    repeat split; try assumption; try reflexivity.
    exists backend, w. repeat split; assumption.
  - exfalso. apply Hno'. exists backend, w. repeat split; assumption.
  - exfalso. apply Hno. exists u, name. repeat split; assumption.
  - right. repeat split; try reflexivity. exact Hno.
Qed.

(** X1.  The two parsers accept the same ids, those of the form [u/role/w]
    with non-empty [u] and [w] and no newline, and on such an id they cut at
    the same place: the id is the backend, then [/role/], then the name.  On
    any other id both fail, with [no backend found] and [no name found]; the
    [unexpected number of matches] errors never arise. *)
Theorem role_id_parse_cases (path : string) :
  (exists backend name,
      terraformCloudSecretBackendRoleBackendFromPath path = (backend, None)
      /\ terraformCloudSecretBackendRoleNameFromPath path = (name, None)
      /\ path = backend ++ "/role/" ++ name
      /\ backend <> EmptyString /\ name <> EmptyString
      /\ roleSplit path)
  \/ (terraformCloudSecretBackendRoleBackendFromPath path
        = (EmptyString, Some "no backend found")
      /\ terraformCloudSecretBackendRoleNameFromPath path
        = (EmptyString, Some "no name found")
      /\ ~ roleSplit path).
Proof. exact (role_id_parse_split path). Qed.

(** X2.  Composing what was parsed gives the id back, when the parsed backend
    has no slash at either end (with the id [/a/role/b] the backend parsed is
    [/a], and the path composed from it is [a/role/b]). *)
Theorem role_path_of_parsed (path backend name : string) :
  terraformCloudSecretBackendRoleBackendFromPath path = (backend, None) ->
  terraformCloudSecretBackendRoleNameFromPath path = (name, None) ->
  Trim backend "/" = backend ->
  terraformCloudSecretBackendRolePath backend name = path.
Proof.
  intros Hb Hn Ht.
  destruct (role_id_parse_split path) as [(b & n & Hb' & Hn' & E & _)|(Hb' & _)].
  - rewrite Hb in Hb'. rewrite Hn in Hn'.
    injection Hb' as <-. injection Hn' as <-.
    unfold terraformCloudSecretBackendRolePath. rewrite Ht. symmetry. exact E.
  - rewrite Hb in Hb'. discriminate Hb'.
Qed.

Lemma role_path_of_parsed_example :
  terraformCloudSecretBackendRolePath "tfc" "admin" = "tfc/role/admin".
Proof.
  apply (role_path_of_parsed "tfc/role/admin" "tfc" "admin"); reflexivity.
Defined.

(** ** Outer slashes of the backend *)

Lemma TrimLeft_fixed (c : ascii) (s cutset : string) :
  inCutset c cutset = false -> TrimLeft (String c s) cutset = String c s.
Proof. intros H. cbn [TrimLeft]. rewrite H. reflexivity. Qed.

Lemma TrimLeft_head (s cutset : string) :
  TrimLeft s cutset = EmptyString
  \/ exists c t, TrimLeft s cutset = String c t /\ inCutset c cutset = false.
Proof.
  induction s as [|c s IH]; [left; reflexivity|].
  cbn [TrimLeft]. destruct (inCutset c cutset) eqn:Hc; [exact IH|].
  right. exists c, s. split; [reflexivity | exact Hc].
Qed.

Lemma TrimRight_idem (s cutset : string) :
  TrimRight (TrimRight s cutset) cutset = TrimRight s cutset.
Proof.
  induction s as [|c s IH]; [reflexivity|].
  cbn [TrimRight]. destruct (TrimRight s cutset) as [|a t] eqn:Ht.
  - destruct (inCutset c cutset) eqn:Hc; [reflexivity|].
    cbn [TrimRight]. rewrite Hc. reflexivity.
  - cbn [TrimRight]. cbn [TrimRight] in IH. rewrite IH. reflexivity.
Qed.

Lemma TrimRight_head (c : ascii) (s cutset : string) :
  inCutset c cutset = false ->
  exists t, TrimRight (String c s) cutset = String c t.
Proof.
  intros Hc. cbn [TrimRight]. destruct (TrimRight s cutset) as [|a t].
  - rewrite Hc. eexists. reflexivity.
  - eexists. reflexivity.
Qed.

Lemma Trim_idem (s cutset : string) :
  Trim (Trim s cutset) cutset = Trim s cutset.
Proof.
  unfold Trim. destruct (TrimLeft_head s cutset) as [->|(c & t & -> & Hc)].
  - reflexivity.
  - destruct (TrimRight_head c t cutset Hc) as [t' Ht']. rewrite Ht'.
    rewrite (TrimLeft_fixed c t' cutset Hc), <- Ht'. apply TrimRight_idem.
Qed.

Lemma TrimRight_last (s cutset t : string) (c : ascii) :
  inCutset c cutset = true -> TrimRight s cutset <> t ++ String c EmptyString.
Proof.
  intros Hc. revert t. induction s as [|a s IH]; intros t.
  - destruct t; discriminate.
  - cbn [TrimRight]. destruct (TrimRight s cutset) as [|b r] eqn:Hr.
    + destruct (inCutset a cutset) eqn:Ha; [destruct t; discriminate|].
      destruct t as [|a' t]; [intros [= ->]; congruence|].
      rewrite append_cons. intros [= _ E]. destruct t; discriminate E.
    + destruct t as [|a' t]; [intros [= _ E]; discriminate E|].
      rewrite append_cons. intros [= _ E]. exact (IH t E).
Qed.

(** X3.  The role path does not depend on the slashes around the backend:
    a backend and the same backend stripped of its outer slashes give the
    same path.  Stripping is idempotent, and what it leaves neither starts
    nor ends with a slash. *)
Theorem role_path_ignores_outer_slashes (backend name : string) :
  terraformCloudSecretBackendRolePath (Trim backend "/") name
  = terraformCloudSecretBackendRolePath backend name
  /\ Trim (Trim backend "/") "/" = Trim backend "/"
  /\ (forall t, Trim backend "/" <> "/" ++ t)
  /\ (forall t, Trim backend "/" <> t ++ "/").
Proof.
  unfold terraformCloudSecretBackendRolePath. rewrite Trim_idem.
  repeat split.
  - intros t. unfold Trim.
    destruct (TrimLeft_head backend "/") as [->|(c & s & -> & Hc)];
      [discriminate|].
    destruct (TrimRight_head c s "/" Hc) as [t' ->].
    rewrite append_cons. intros [= -> _]. discriminate Hc.
  - intros t. unfold Trim. apply TrimRight_last. reflexivity.
Qed.

(** ** Reading a role: the other outcomes *)

(** Reading at any point of a run. *)
Lemma role_read_run (c : client) (log : list request) (d : ResourceData) :
  run c log (terraformCloudSecretBackendRoleRead d)
  = match terraformCloudSecretBackendRoleNameFromPath (Id d),
          terraformCloudSecretBackendRoleBackendFromPath (Id d) with
    | (_, Some e), _ | (_, None), (_, Some e) =>
        ([], Returned (Some ("invalid role ID " ++ quote (Id d) ++ ": " ++ e),
                       SetId d EmptyString))
    | (name, None), (backend, None) =>
        match c log (Read (Id d)) with
        | (_, Some e) =>
            ([Read (Id d)],
             Returned (Some ("error reading role configuration for "
                               ++ quote (Id d) ++ ": " ++ e), d))
        | (None, None) => ([Read (Id d)], Returned (Some "resource not found", d))
        | (Some secret, None) =>
            let data := Data secret in
            let d1 := fst (Set_ d "name" (VStr name)) in
            let d2 := fst (Set_ d1 (if snd (GetOk d1 "path") then "path" else "backend")
                             (VStr backend)) in
            let d3 := fst (Set_ d2 "organization" (mapIndex data "organization")) in
            let d4 := fst (Set_ d3 "team_id" (mapIndex data "team_id")) in
            let d5 := fst (Set_ d4 "user_id" (mapIndex data "user_id")) in
            let d6 := fst (Set_ d5 "max_ttl" (mapIndex data "max_ttl")) in
            let d7 := fst (Set_ d6 "ttl" (mapIndex data "ttl")) in
            ([Read (Id d)], Returned (None, d7))
        end
    end.
Proof.
  unfold terraformCloudSecretBackendRoleRead. hstep.
  destruct (terraformCloudSecretBackendRoleNameFromPath (Id d)) as [name [e|]];
    [reflexivity|].
  destruct (terraformCloudSecretBackendRoleBackendFromPath (Id d)) as [backend [e|]];
    [reflexivity|].
  hstep. destruct (c log (Read (Id d))) as [[secret|] [e|]]; try reflexivity.
  hstep.
  destruct (Set_ d "name" (VStr name)) as [d1 e1]. hstep. cbn [fst snd].
  destruct (GetOk d1 "path") as [v []]; cbn [fst snd];
    repeat (match goal with
            | |- context [Set_ ?a ?k ?v] =>
                lazymatch a with
                | context [Set_] => fail
                | _ => destruct (Set_ a k v) as [? ?]
                end
            end; cbn [fst snd run ioBind]);
    reflexivity.
Qed.

Lemma Set_schema (d : ResourceData) (k : string) (v : value) :
  schema (fst (Set_ d k v)) = schema d.
Proof.
  unfold Set_. destruct (lookupSchema (schema d) k) as [s|]; [|reflexivity].
  destruct v; try reflexivity; destruct (stored (Type_ s) _); reflexivity.
Qed.

Lemma Set_Id (d : ResourceData) (k : string) (v : value) :
  Id (fst (Set_ d k v)) = Id d.
Proof.
  unfold Set_. destruct (lookupSchema (schema d) k) as [s|]; [|reflexivity].
  destruct v; try reflexivity; destruct (stored (Type_ s) _); reflexivity.
Qed.

Lemma Set_lookup_ne (d : ResourceData) (k k' : string) (v : value) :
  k' <> k -> fields (fst (Set_ d k v)) !! k' = fields d !! k'.
Proof.
  intros Hne. unfold Set_.
  destruct (lookupSchema (schema d) k) as [s|]; [|reflexivity].
  destruct v; cbn [fst fields];
    try destruct (stored (Type_ s) _); cbn [fst fields];
    rewrite ?lookup_insert_ne by congruence; reflexivity.
Qed.

Lemma stored_hasType (t : ValueType) (v : value) :
  hasType t v = true -> stored t v = Some v.
Proof.
  intros H. unfold stored. rewrite H.
  destruct t, v; try reflexivity; discriminate H.
Qed.

Lemma Set_lookup_eq (d : ResourceData) (k : string) (v : value) (s : Schema) :
  lookupSchema (schema d) k = Some s -> hasType (Type_ s) v = true ->
  fields (fst (Set_ d k v)) !! k = Some v.
Proof.
  intros Hs Ht. unfold Set_. rewrite Hs, (stored_hasType _ _ Ht).
  destruct v; try (destruct (Type_ s); discriminate Ht);
    cbn [fst fields]; apply lookup_insert_eq.
Qed.

(** An integer that does not fit an [int] is not stored in an integer
    attribute: the data stays as it was. *)
Lemma Set_int_out_of_range (d : ResourceData) (k : string) (z : Z) (s : Schema) :
  lookupSchema (schema d) k = Some s -> Type_ s = TypeInt -> inInt z = false ->
  fst (Set_ d k (VInt z)) = d.
Proof.
  intros Hs Ht Hz. unfold Set_. rewrite Hs, Ht. unfold stored, hasType.
  rewrite Hz. reflexivity.
Qed.

Lemma inInt_spec (z : Z) :
  inInt z = true <-> (- 2 ^ 63 <= z < 2 ^ 63)%Z.
Proof. unfold inInt. rewrite andb_true_iff, Z.leb_le, Z.ltb_lt. reflexivity. Qed.

(** X4.  An id that is not of the form [u/role/w] is never looked up: Read
    makes no request, clears the id and fails with [invalid role ID]; the
    reason given is always [no name found]. *)
Theorem role_read_rejects_bad_id (c : client) (d : ResourceData) :
  ~ roleSplit (Id d) ->
  exec terraformCloudSecretBackendRoleRead c d
  = ([], Returned (Some ("invalid role ID " ++ quote (Id d) ++ ": no name found"),
                   SetId d EmptyString)).
Proof.
  intros Hno. unfold exec. rewrite role_read_run.
  destruct (role_id_parse_split (Id d))
    as [(b & n & _ & _ & _ & _ & _ & Hs)|(Hb & Hn & _)]; [contradiction|].
  rewrite Hn. reflexivity.
Qed.

Lemma role_read_rejects_bad_id_example :
  exec terraformCloudSecretBackendRoleRead nothing (roleData "admin" ∅)
  = ([], Returned (Some ("invalid role ID " ++ dquote ++ "admin" ++ dquote
                           ++ ": no name found"),
                   roleData EmptyString ∅)).
Proof.
  apply (role_read_rejects_bad_id nothing (roleData "admin" ∅)).
  intros Hs.
  destruct (role_id_parse_split "admin")
    as [(b & n & Hb & _)|(_ & _ & Hno)]; [|exact (Hno Hs)].
  vm_compute in Hb. discriminate Hb.
Defined.

(** Reading a role that the service has, at any point of a run. *)
Lemma role_read_found_run (c : client) (log : list request) (id : string) (f : gmap string value)
    (backend name : string) (secret : Secret) :
  terraformCloudSecretBackendRoleBackendFromPath id = (backend, None) ->
  terraformCloudSecretBackendRoleNameFromPath id = (name, None) ->
  c log (Read id) = (Some secret, None) ->
  exists d',
    run c log (terraformCloudSecretBackendRoleRead (roleData id f))
      = ([Read id], Returned (None, d'))
    /\ Id d' = id
    /\ fields d' !! "name" = Some (VStr name)
    /\ (if snd (GetOk (roleData id f) "path")
        then fields d' !! "path" = Some (VStr backend)
             /\ fields d' !! "backend" = f !! "backend"
        else fields d' !! "backend" = Some (VStr backend)
             /\ fields d' !! "path" = f !! "path")
    /\ (forall k v, In k ["organization"; "team_id"; "user_id"] ->
                    Data secret !! k = Some (VStr v) ->
                    fields d' !! k = Some (VStr v))
    /\ (forall k z, In k ["max_ttl"; "ttl"] ->
                    Data secret !! k = Some (VInt z) ->
                    (- 2 ^ 63 <= z < 2 ^ 63)%Z ->
                    fields d' !! k = Some (VInt z))
    /\ (forall k z, In k ["max_ttl"; "ttl"] ->
                    Data secret !! k = Some (VInt z) ->
                    ~ (- 2 ^ 63 <= z < 2 ^ 63)%Z ->
                    fields d' !! k = f !! k).
Proof.
  intros Hb Hn Hc. rewrite role_read_run.
  cbn [Id roleData]. rewrite Hb, Hn, Hc. cbv zeta.
  eexists. split; [reflexivity|].
  assert (forall d k, schema d = terraformCloudSecretBackendRoleSchema ->
                      forall v, schema (fst (Set_ d k v))
                                = terraformCloudSecretBackendRoleSchema) as Hsch
    by (intros d k Hd v; rewrite Set_schema; exact Hd).
  assert (GetOk (fst (Set_ (roleData id f) "name" (VStr name))) "path"
          = GetOk (roleData id f) "path") as HG.
  { unfold GetOk, zeroOf. rewrite Set_lookup_ne by discriminate.
    rewrite Set_schema. reflexivity. }
  rewrite HG.
  repeat split.
  - rewrite !Set_Id. reflexivity.
  - rewrite !Set_lookup_ne
      by (try destruct (snd (GetOk (roleData id f) "path")); discriminate).
    apply (Set_lookup_eq _ _ _ (attr TypeString true false true [] None));
      reflexivity.
  - destruct (snd (GetOk (roleData id f) "path")); split;
      rewrite !Set_lookup_ne by discriminate; try reflexivity.
    + eapply Set_lookup_eq; [rewrite Set_schema; reflexivity | reflexivity].
    + eapply Set_lookup_eq; [rewrite Set_schema; reflexivity | reflexivity].
  - intros k v Hk Hv. cbn [In] in Hk.
    assert (mapIndex (Data secret) k = VStr v) as Hv'
      by (unfold mapIndex; rewrite Hv; reflexivity).
    destruct Hk as [<-|[<-|[<-|[]]]]; rewrite !Set_lookup_ne by discriminate;
      rewrite Hv';
      (eapply Set_lookup_eq; [rewrite !Set_schema; reflexivity | reflexivity]).
  - intros k z Hk Hz Hr. cbn [In] in Hk.
    assert (mapIndex (Data secret) k = VInt z) as Hz'
      by (unfold mapIndex; rewrite Hz; reflexivity).
    apply inInt_spec in Hr.
    destruct Hk as [<-|[<-|[]]]; rewrite ?Set_lookup_ne by discriminate;
      rewrite Hz';
      (eapply Set_lookup_eq; [rewrite !Set_schema; reflexivity | exact Hr]).
  - intros k z Hk Hz Hr. cbn [In] in Hk.
    assert (mapIndex (Data secret) k = VInt z) as Hz'
      by (unfold mapIndex; rewrite Hz; reflexivity).
    assert (inInt z = false) as Hout.
    { destruct (inInt z) eqn:E; [|reflexivity].
      exfalso. apply Hr. apply inInt_spec. exact E. }
    destruct Hk as [<-|[<-|[]]]; rewrite ?Set_lookup_ne by discriminate;
      rewrite Hz';
      (erewrite Set_int_out_of_range;
       [ | rewrite !Set_schema; reflexivity | reflexivity | exact Hout ]);
      rewrite !Set_lookup_ne
        by (try destruct (snd (GetOk (roleData id f) "path")); discriminate);
      reflexivity.
Qed.

(** X5.  When the id parses and the remote read returns an object, Read
    succeeds after that one read and keeps the id.  It stores the parsed name
    under [name], and the parsed backend under [path] if [path] was in use
    (set and not empty) and under [backend] otherwise, leaving the other of
    the two as it was.  A string that the object has for [organization],
    [team_id] or [user_id] is stored under the same key, and so is an integer
    that it has for [max_ttl] or [ttl] if it fits an [int]; if it does not,
    the attribute keeps the value it had, and Read succeeds all the same. *)
Theorem role_read_found (c : client) (id : string) (f : gmap string value)
    (backend name : string) (secret : Secret) :
  terraformCloudSecretBackendRoleBackendFromPath id = (backend, None) ->
  terraformCloudSecretBackendRoleNameFromPath id = (name, None) ->
  c [] (Read id) = (Some secret, None) ->
  exists d',
    exec terraformCloudSecretBackendRoleRead c (roleData id f)
      = ([Read id], Returned (None, d'))
    /\ Id d' = id
    /\ fields d' !! "name" = Some (VStr name)
    /\ (if snd (GetOk (roleData id f) "path")
        then fields d' !! "path" = Some (VStr backend)
             /\ fields d' !! "backend" = f !! "backend"
        else fields d' !! "backend" = Some (VStr backend)
             /\ fields d' !! "path" = f !! "path")
    /\ (forall k v, In k ["organization"; "team_id"; "user_id"] ->
                    Data secret !! k = Some (VStr v) ->
                    fields d' !! k = Some (VStr v))
    /\ (forall k z, In k ["max_ttl"; "ttl"] ->
                    Data secret !! k = Some (VInt z) ->
                    (- 2 ^ 63 <= z < 2 ^ 63)%Z ->
                    fields d' !! k = Some (VInt z))
    /\ (forall k z, In k ["max_ttl"; "ttl"] ->
                    Data secret !! k = Some (VInt z) ->
                    ~ (- 2 ^ 63 <= z < 2 ^ 63)%Z ->
                    fields d' !! k = f !! k).
Proof. exact (role_read_found_run c [] id f backend name secret). Qed.

Lemma role_read_found_example :
  exists d',
    exec terraformCloudSecretBackendRoleRead roleServer
      (roleData "tfc/role/admin" {[ "path" := VStr "old" ]})
    = ([Read "tfc/role/admin"], Returned (None, d'))
    /\ Id d' = "tfc/role/admin"
    /\ fields d' !! "name" = Some (VStr "admin")
    /\ fields d' !! "path" = Some (VStr "tfc")
    /\ fields d' !! "backend" = None
    /\ fields d' !! "organization" = Some (VStr "acme")
    /\ fields d' !! "ttl" = Some (VInt 300).
Proof.
  destruct (role_read_found roleServer "tfc/role/admin" {[ "path" := VStr "old" ]}
              "tfc" "admin" adminRole)
    as (d' & E & Hid & Hname & Hpath & Hstr & Hint & _);
    [reflexivity | reflexivity | reflexivity |].
  exists d'. destruct Hpath as [Hp Hb].
  repeat split; try assumption.
  - apply Hstr; [cbn [In]; tauto | reflexivity].
  - apply Hint; [cbn [In]; tauto | reflexivity | lia].
Defined.

(** ** Writing a role: the other outcomes *)

Lemma rolePayload_lookup (d : ResourceData) (k : string) :
  rolePayload d !! k = if bool_decide (In k rolePayloadKeys) then fields d !! k else None.
Proof.
  unfold rolePayload, rolePayloadKeys. cbn [fold_left].
  case_bool_decide as Hk; cbn [In] in Hk.
  - destruct Hk as [<-|[<-|[<-|[<-|[<-|[]]]]]];
      destruct (fields d !! "max_ttl"), (fields d !! "ttl"),
        (fields d !! "organization"), (fields d !! "team_id"),
        (fields d !! "user_id"); simplify_map_eq; reflexivity.
  - destruct (fields d !! "max_ttl"), (fields d !! "ttl"),
      (fields d !! "organization"), (fields d !! "team_id"),
      (fields d !! "user_id");
      repeat (rewrite lookup_insert_ne by (intros <-; tauto));
      apply lookup_empty.
Qed.

(** Write up to the answer of the service. *)
Lemma role_write_run (c : client) (d : ResourceData) (backend name : string) :
  Get d "name" = VStr name ->
  terraformCloudSecretBackendRoleGetBackend d = Ret (backend, d) ->
  backend <> EmptyString ->
  let path := terraformCloudSecretBackendRolePath backend name in
  let w := Write path (rolePayload d) in
  exec terraformCloudSecretBackendRoleWrite c d
  = match c [] w with
    | (_, Some e) =>
        ([w], Returned (Some ("error writing role configuration for "
                                ++ quote path ++ ": " ++ e), d))
    | (_, None) =>
        (w :: fst (run c [w] (terraformCloudSecretBackendRoleRead (SetId d path))),
         snd (run c [w] (terraformCloudSecretBackendRoleRead (SetId d path))))
    end.
Proof.
  intros Hname Hbackend Hne. cbv zeta.
  unfold terraformCloudSecretBackendRoleWrite. hstep.
  rewrite Hname. hstep. rewrite Hbackend. hstep.
  apply String.eqb_neq in Hne. rewrite Hne.
  do 5 (rewrite putIfExists_eq; hstep).
  unfold rolePayload, rolePayloadKeys. cbn [fold_left].
  destruct (c [] _) as [s [e|]]; reflexivity.
Qed.

Lemma getBackend_of_fields (d : ResourceData) (b : string) :
  b <> EmptyString ->
  fields d !! "backend" = Some (VStr b)
  \/ ((fields d !! "backend" = None \/ fields d !! "backend" = Some (VStr EmptyString))
      /\ fields d !! "path" = Some (VStr b)) ->
  terraformCloudSecretBackendRoleGetBackend d = Ret (b, d).
Proof.
  intros Hne Hcase. rewrite getBackend_eq. unfold GetOk.
  apply String.eqb_neq in Hne.
  destruct Hcase as [->|[[->| ->] ->]]; cbn [isZero negb String.eqb];
    rewrite Hne; reflexivity.
Qed.

(** X6.  When the remote write fails, Write returns an error that names the
    path and carries the cause; it makes no other request and leaves the
    resource data, the id included, as it was. *)
Theorem role_write_error (c : client) (d : ResourceData) (backend name : string)
    (s : option Secret) (e : error) :
  Get d "name" = VStr name ->
  terraformCloudSecretBackendRoleGetBackend d = Ret (backend, d) ->
  backend <> EmptyString ->
  let path := terraformCloudSecretBackendRolePath backend name in
  c [] (Write path (rolePayload d)) = (s, Some e) ->
  exec terraformCloudSecretBackendRoleWrite c d
  = ([Write path (rolePayload d)],
     Returned (Some ("error writing role configuration for " ++ quote path
                       ++ ": " ++ e), d)).
Proof.
  intros Hname Hb Hne path Hc.
  rewrite (role_write_run c d backend name Hname Hb Hne). cbv zeta.
  fold path. rewrite Hc. reflexivity.
Qed.

Lemma role_write_error_example :
  exec terraformCloudSecretBackendRoleWrite (failing "permission denied")
    (roleData EmptyString {[ "name" := VStr "admin"; "backend" := VStr "tfc" ]})
  = ([Write "tfc/role/admin" ∅],
     Returned (Some ("error writing role configuration for " ++ dquote
                       ++ "tfc/role/admin" ++ dquote ++ ": permission denied"),
               roleData EmptyString
                 {[ "name" := VStr "admin"; "backend" := VStr "tfc" ]})).
Proof.
  rewrite (role_write_error (failing "permission denied")
             (roleData EmptyString {[ "name" := VStr "admin"; "backend" := VStr "tfc" ]})
             "tfc" "admin" None "permission denied");
    first [reflexivity | discriminate].
Defined.

(** X7.  The write goes to the backend named by [backend] whenever that
    attribute is a non-empty string, whatever [path] holds; [path] is used
    only when [backend] is missing or empty. *)
Theorem role_write_prefers_backend (c : client) (d : ResourceData) (b name : string) :
  Get d "name" = VStr name ->
  b <> EmptyString ->
  fields d !! "backend" = Some (VStr b)
  \/ ((fields d !! "backend" = None \/ fields d !! "backend" = Some (VStr EmptyString))
      /\ fields d !! "path" = Some (VStr b)) ->
  exists trace o,
    exec terraformCloudSecretBackendRoleWrite c d
    = (Write (terraformCloudSecretBackendRolePath b name) (rolePayload d) :: trace, o).
Proof.
  intros Hname Hne Hcase.
  rewrite (role_write_run c d b name Hname (getBackend_of_fields d b Hne Hcase) Hne).
  cbv zeta. destruct (c [] _) as [s [e|]]; eexists _, _; reflexivity.
Qed.

Lemma role_write_prefers_backend_example :
  exists trace o,
    exec terraformCloudSecretBackendRoleWrite nothing
      (roleData EmptyString
         {[ "name" := VStr "admin"; "backend" := VStr "tfc"; "path" := VStr "old" ]})
    = (Write "tfc/role/admin" ∅ :: trace, o).
Proof.
  destruct (role_write_prefers_backend nothing
              (roleData EmptyString
                 {[ "name" := VStr "admin"; "backend" := VStr "tfc";
                    "path" := VStr "old" ]}) "tfc" "admin")
    as (trace & o & E); [reflexivity | discriminate | left; reflexivity |].
  exists trace, o. rewrite E. reflexivity.
Defined.

(** X8.  Create end to end.  For a backend and a name that meet the
    conditions of the round trip, when the service accepts the write and
    then returns the role, Create makes the write and one read of the same
    path and succeeds; the id becomes the role path, [name] is the name that
    was configured, and the backend is stored without its outer slashes. *)
Theorem role_create_stores_path (c : client) (id : string)
    (f : gmap string value) (backend name : string)
    (s : option Secret) (secret : Secret) :
  f !! "name" = Some (VStr name) ->
  f !! "backend" = Some (VStr backend) ->
  Trim backend "/" <> EmptyString -> name <> EmptyString ->
  noNewline (Trim backend "/") = true -> noNewline name = true ->
  splitsAtRole ("/" ++ name) = false ->
  let d := roleData id f in
  let path := terraformCloudSecretBackendRolePath backend name in
  let w := Write path (rolePayload d) in
  c [] w = (s, None) ->
  c [w] (Read path) = (Some secret, None) ->
  exists d',
    exec terraformCloudSecretBackendRoleWrite c d
      = ([w; Read path], Returned (None, d'))
    /\ Id d' = path
    /\ fields d' !! "name" = Some (VStr name)
    /\ (if snd (GetOk d "path")
        then fields d' !! "path" = Some (VStr (Trim backend "/"))
        else fields d' !! "backend" = Some (VStr (Trim backend "/"))).
Proof.
  intros Hname Hbackend HB HN HnB HnN Hs d path w Hw Hr.
  assert (backend <> EmptyString) as Hne by (intros ->; apply HB; reflexivity).
  assert (Get d "name" = VStr name) as HGet
    by (unfold Get, d; cbn [fields roleData]; rewrite Hname; reflexivity).
  assert (terraformCloudSecretBackendRoleGetBackend d = Ret (backend, d)) as HGb
    by (apply getBackend_of_fields; [exact Hne | left; exact Hbackend]).
  rewrite (role_write_run c d backend name HGet HGb Hne). cbv zeta.
  fold path. fold w. rewrite Hw.
  change (SetId d path) with (roleData path f).
  destruct (parse_role_path (Trim backend "/") name HB HN HnB HnN Hs) as [Pb Pn].
  destruct (role_read_found_run c [w] path f (Trim backend "/") name secret
              Pb Pn Hr) as (d' & E & Hid & Hn' & Hp & _).
  exists d'. rewrite E. cbn [fst snd]. repeat split; try assumption.
  change (GetOk d "path") with (GetOk (roleData path f) "path").
  destruct (snd (GetOk (roleData path f) "path")); tauto.
Qed.

Lemma role_create_stores_path_example :
  exists d',
    exec terraformCloudSecretBackendRoleWrite roleServer
      (roleData EmptyString
         {[ "name" := VStr "admin"; "backend" := VStr "/tfc/"; "ttl" := VInt 300 ]})
    = ([Write "tfc/role/admin" {[ "ttl" := VInt 300 ]}; Read "tfc/role/admin"],
       Returned (None, d'))
    /\ Id d' = "tfc/role/admin"
    /\ fields d' !! "backend" = Some (VStr "tfc").
Proof.
  destruct (role_create_stores_path roleServer EmptyString
              {[ "name" := VStr "admin"; "backend" := VStr "/tfc/";
                 "ttl" := VInt 300 ]} "/tfc/" "admin" None adminRole)
    as (d' & E & Hid & _ & Hb);
    [reflexivity | reflexivity | discriminate | discriminate
    | reflexivity | reflexivity | reflexivity | reflexivity | reflexivity |].
  exists d'. rewrite E. repeat split; assumption.
Defined.

(** ** Deleting a role and checking that it exists *)

(** X9.  Delete and Exists of a role make one request each, on the stored id
    as it is, and never change the resource data.  Delete succeeds exactly
    when the remote delete reports no error, so an object already gone is a
    success, and its error carries the cause.  Exists reports an error
    exactly when the read does, and answers [true] exactly when the read
    returns an object without an error. *)
Theorem role_delete_exists (c : client) (d : ResourceData) :
  (exists r,
      exec terraformCloudSecretBackendRoleDelete c d
        = ([Delete (Id d)], Returned (r, d))
      /\ (r = None <-> snd (c [] (Delete (Id d))) = None)
      /\ (forall e, snd (c [] (Delete (Id d))) = Some e ->
            r = Some ("error deleting Terraform Cloud backend role at "
                        ++ quote (Id d) ++ ": " ++ e)))
  /\ (exists b r,
        exec terraformCloudSecretBackendRoleExists c d
          = ([Read (Id d)], Returned ((b, r), d))
        /\ (r = None <-> snd (c [] (Read (Id d))) = None)
        /\ (b = true <-> exists s, c [] (Read (Id d)) = (Some s, None))).
Proof.
  split.
  - unfold terraformCloudSecretBackendRoleDelete. hstep.
    destruct (c [] (Delete (Id d))) as [s [e|]]; eexists;
      (split; [reflexivity|]); cbn [snd]; split; try easy.
    intros e' [= <-]. reflexivity.
  - unfold terraformCloudSecretBackendRoleExists. hstep.
    destruct (c [] (Read (Id d))) as [[s|] [e|]]; eexists _, _;
      (split; [reflexivity|]); cbn [snd]; split; try easy;
      split; try easy; try (intros [s' H]; discriminate H).
    intros _. exists s. reflexivity.
Qed.

(** ** Reading an alias that the service has *)




(** X11.  When the response to the read has no string under [id], Read
    panics on the type assertion after that one read. *)
Theorem alias_read_panics_without_id (c : client) (d : ResourceData)
    (resp : Secret) :
  c [] (Read (identityEntityAliasIDPath (Id d))) = (Some resp, None) ->
  assertString (mapIndex (Data resp) "id") = None ->
  exec identityEntityAliasRead c d
  = ([Read (identityEntityAliasIDPath (Id d))], Panicked).
Proof.
  intros Hc Hid. unfold identityEntityAliasRead. hstep.
  rewrite Hc. hstep.
  destruct (mapIndex (Data resp) "id"); try reflexivity. discriminate Hid.
Qed.

Lemma alias_read_panics_without_id_example :
  exec identityEntityAliasRead (fun _ _ => (Some {| Data := ∅ |}, None))
    (aliasData "a1" ∅)
  = ([Read "/identity/entity-alias/id/a1"], Panicked).
Proof.
  apply (alias_read_panics_without_id (fun _ _ => (Some {| Data := ∅ |}, None))
           (aliasData "a1" ∅) {| Data := ∅ |}); reflexivity.
Defined.

(** ** Creating an alias: the other outcomes *)

(** Create up to the answer to its write, when there is an answer or an
    error. *)
Lemma alias_create_run (c : client) (d : ResourceData)
    (name mountAccessor canonicalID : string) (meta : gmap string value)
    (resp : option Secret) (err : option error) :
  Get d "name" = VStr name ->
  Get d "mount_accessor" = VStr mountAccessor ->
  Get d "canonical_id" = VStr canonicalID ->
  Get d "custom_metadata" = VMap meta ->
  let w := Write identityEntityAliasPath
             (aliasCreateData name mountAccessor canonicalID meta) in
  c [] w = (resp, err) ->
  (err = None -> resp <> None) ->
  exec identityEntityAliasCreate c d
  = match err, resp with
    | Some e, _ =>
        ([w], Returned (Some ("error writing IdentityEntityAlias to "
                                ++ quote name ++ ": " ++ e), d))
    | None, Some resp =>
        match mapIndex (Data resp) "id" with
        | VStr id =>
            (w :: fst (run c [w] (identityEntityAliasRead (SetId d id))),
             snd (run c [w] (identityEntityAliasRead (SetId d id))))
        | _ => ([w], Panicked)
        end
    | None, None => ([w], Panicked)
    end.
Proof.
  intros Hn Hm Hc Hmeta w Hw Hresp.
  unfold identityEntityAliasCreate. hstep.
  rewrite Hn. hstep. rewrite Hm. hstep. rewrite Hc. hstep. rewrite Hmeta. hstep.
  fold (aliasCreateData name mountAccessor canonicalID meta). fold w.
  rewrite Hw. destruct err as [e|]; [reflexivity|].
  destruct resp as [resp|]; [|exfalso; apply Hresp; reflexivity].
  hstep. destruct (mapIndex (Data resp) "id"); reflexivity.
Qed.



(** X13.  When the write of Create fails, Create returns an error that names
    the alias and carries the cause, makes no other request and leaves the
    resource data as it was. *)
Theorem alias_create_write_error (c : client) (d : ResourceData)
    (name mountAccessor canonicalID : string) (meta : gmap string value)
    (resp : option Secret) (e : error) :
  Get d "name" = VStr name ->
  Get d "mount_accessor" = VStr mountAccessor ->
  Get d "canonical_id" = VStr canonicalID ->
  Get d "custom_metadata" = VMap meta ->
  let w := Write identityEntityAliasPath
             (aliasCreateData name mountAccessor canonicalID meta) in
  c [] w = (resp, Some e) ->
  exec identityEntityAliasCreate c d
  = ([w], Returned (Some ("error writing IdentityEntityAlias to "
                            ++ quote name ++ ": " ++ e), d)).
Proof.
  intros Hn Hm Hc Hmeta w Hw.
  rewrite (alias_create_run c d name mountAccessor canonicalID meta
             resp (Some e) Hn Hm Hc Hmeta Hw) by discriminate.
  reflexivity.
Qed.

Lemma alias_create_write_error_example :
  exec identityEntityAliasCreate (failing "permission denied") bobAlias
  = ([Write "/identity/entity-alias" (aliasCreateData "bob" "auth_1" "e1" ∅)],
     Returned (Some ("error writing IdentityEntityAlias to " ++ dquote ++ "bob"
                       ++ dquote ++ ": permission denied"), bobAlias)).
Proof.
  rewrite (alias_create_write_error (failing "permission denied") bobAlias
             "bob" "auth_1" "e1" ∅ None "permission denied");
    reflexivity.
Defined.

(** X14.  Create panics, after its write, when the response to the write has
    no string under [id]. *)
Theorem alias_create_panics_without_id (c : client) (d : ResourceData)
    (name mountAccessor canonicalID : string) (meta : gmap string value)
    (resp : Secret) :
  Get d "name" = VStr name ->
  Get d "mount_accessor" = VStr mountAccessor ->
  Get d "canonical_id" = VStr canonicalID ->
  Get d "custom_metadata" = VMap meta ->
  let w := Write identityEntityAliasPath
             (aliasCreateData name mountAccessor canonicalID meta) in
  c [] w = (Some resp, None) ->
  assertString (mapIndex (Data resp) "id") = None ->
  exec identityEntityAliasCreate c d = ([w], Panicked).
Proof.
  intros Hn Hm Hc Hmeta w Hw Hid.
  rewrite (alias_create_run c d name mountAccessor canonicalID meta
             (Some resp) None Hn Hm Hc Hmeta Hw) by discriminate.
  destruct (mapIndex (Data resp) "id"); try reflexivity. discriminate Hid.
Qed.

Lemma alias_create_panics_without_id_example :
  exec identityEntityAliasCreate (fun _ _ => (Some {| Data := ∅ |}, None)) bobAlias
  = ([Write "/identity/entity-alias" (aliasCreateData "bob" "auth_1" "e1" ∅)],
     Panicked).
Proof.
  rewrite (alias_create_panics_without_id
             (fun _ _ => (Some {| Data := ∅ |}, None)) bobAlias
             "bob" "auth_1" "e1" ∅ {| Data := ∅ |});
    reflexivity.
Defined.

(** Create when the write is answered with nothing: every outcome. *)
Lemma alias_create_merged_run (c : client) (d : ResourceData)
    (name mountAccessor canonicalID : string) (meta : gmap string value)
    (resp : option Secret) (err : option error) :
  Get d "name" = VStr name ->
  Get d "mount_accessor" = VStr mountAccessor ->
  Get d "canonical_id" = VStr canonicalID ->
  Get d "custom_metadata" = VMap meta ->
  let w := Write identityEntityAliasPath
             (aliasCreateData name mountAccessor canonicalID meta) in
  let r := Read (identityEntityIDPath canonicalID) in
  c [] w = (None, None) ->
  c [w] r = (resp, err) ->
  exec identityEntityAliasCreate c d
  = ([w; r],
     match err, resp with
     | Some _, _ | None, None => Returned (Some (mergedUnknownID name), d)
     | None, Some entity =>
         match mapIndex (Data entity) "aliases" with
         | VList aliases =>
             match findAliasLoop aliases name mountAccessor with
             | Some (Some aliasID) => Returned (Some (mergedWithID name aliasID), d)
             | Some None => Returned (Some (mergedUnknownID name), d)
             | None => Panicked
             end
         | _ => Panicked
         end
     end).
Proof.
  intros Hn Hm Hc Hmeta w r Hw Hr.
  unfold identityEntityAliasCreate, findAliasID. hstep.
  rewrite Hn. hstep. rewrite Hm. hstep. rewrite Hc. hstep. rewrite Hmeta. hstep.
  fold (aliasCreateData name mountAccessor canonicalID meta). fold w.
  rewrite Hw. hstep. fold r. cbn [app]. rewrite Hr.
  destruct err as [e|]; [reflexivity|].
  destruct resp as [entity|]; [|reflexivity].
  hstep.
  destruct (mapIndex (Data entity) "aliases") as [| | | |aliases]; try reflexivity.
  hstep.
  destruct (findAliasLoop aliases name mountAccessor) as [[aliasID|]|];
    reflexivity.
Qed.

Lemma findAliasLoop_panics (pre post : list value) (v : value)
    (name mountAccessor : string) :
  forallb (noMatch name mountAccessor) pre = true ->
  isMap v = false
  \/ (aliasMatches name mountAccessor v = true
      /\ forall alias, v = VMap alias -> assertString (mapIndex alias "id") = None) ->
  findAliasLoop (pre ++ v :: post)%list name mountAccessor = None.
Proof.
  intros Hpre Hv. induction pre as [|a pre IH].
  - cbn [app findAliasLoop].
    destruct Hv as [Hv|[Hm Hid]].
    + destruct v; try reflexivity. discriminate Hv.
    + destruct v as [| | |alias|]; try discriminate Hm.
      cbn [assertMap]. cbn [aliasMatches] in Hm. rewrite Hm.
      rewrite (Hid alias eq_refl). reflexivity.
  - cbn [forallb] in Hpre. apply andb_true_iff in Hpre as [Ha Hpre].
    unfold noMatch in Ha. apply andb_true_iff in Ha as [Hmap Ha].
    destruct a as [| | |al|]; try discriminate Hmap.
    apply negb_true_iff in Ha. cbn [aliasMatches] in Ha.
    cbn [app findAliasLoop assertMap]. rewrite Ha. exact (IH Hpre).
Qed.

(** X15.  The recovery of Create can panic.  After a write answered with
    nothing, when the entity read has no list under [aliases], or when the
    list has, before any matching entry, an entry that is not a map, or when
    the first matching entry has no string under [id], Create panics after
    the read of the entity instead of returning an error. *)
Theorem alias_create_recovery_panics (c : client) (d : ResourceData)
    (name mountAccessor canonicalID : string) (meta : gmap string value)
    (entity : Secret) :
  Get d "name" = VStr name ->
  Get d "mount_accessor" = VStr mountAccessor ->
  Get d "canonical_id" = VStr canonicalID ->
  Get d "custom_metadata" = VMap meta ->
  let w := Write identityEntityAliasPath
             (aliasCreateData name mountAccessor canonicalID meta) in
  let r := Read (identityEntityIDPath canonicalID) in
  c [] w = (None, None) ->
  c [w] r = (Some entity, None) ->
  assertSlice (mapIndex (Data entity) "aliases") = None
  \/ (exists pre v post,
        mapIndex (Data entity) "aliases" = VList (pre ++ v :: post)
        /\ forallb (noMatch name mountAccessor) pre = true
        /\ (isMap v = false
            \/ (aliasMatches name mountAccessor v = true
                /\ forall alias, v = VMap alias ->
                                 assertString (mapIndex alias "id") = None))) ->
  exec identityEntityAliasCreate c d = ([w; r], Panicked).
Proof.
  intros Hn Hm Hc Hmeta w r Hw Hr Hcase.
  rewrite (alias_create_merged_run c d name mountAccessor canonicalID meta
             (Some entity) None Hn Hm Hc Hmeta Hw Hr).
  destruct Hcase as [Hno|(pre & v & post & -> & Hpre & Hv)].
  - destruct (mapIndex (Data entity) "aliases"); try reflexivity.
    discriminate Hno.
  - rewrite (findAliasLoop_panics pre post v name mountAccessor Hpre Hv).
    reflexivity.
Qed.

Lemma alias_create_recovery_panics_example :
  exec identityEntityAliasCreate
    (fun _ req => match req with
                  | Read _ => (Some {| Data := ∅ |}, None)
                  | _ => (None, None)
                  end) bobAlias
  = ([Write "/identity/entity-alias" (aliasCreateData "bob" "auth_1" "e1" ∅);
      Read (identityEntityIDPath "e1")], Panicked).
Proof.
  rewrite (alias_create_recovery_panics
             (fun _ req => match req with
                           | Read _ => (Some {| Data := ∅ |}, None)
                           | _ => (None, None)
                           end) bobAlias "bob" "auth_1" "e1" ∅ {| Data := ∅ |});
    first [reflexivity | left; reflexivity].
Defined.

(** ** Updating an alias: the other outcomes *)

(** X16.  Update fails without changing the resource data when one of its
    remote calls fails: when the first read fails there is no write at all,
    and when the write fails there is no read after it.  Both errors name
    the id and carry the cause. *)
Theorem alias_update_errors (c : client) (d : ResourceData)
    (meta : gmap string value) (e : error) :
  Get d "custom_metadata" = VMap meta ->
  let path := identityEntityAliasIDPath (Id d) in
  let failure :=
    Some ("error updating IdentityEntityAlias " ++ quote (Id d) ++ ": " ++ e) in
  (forall r, c [] (Read path) = (r, Some e) ->
             exec identityEntityAliasUpdate c d
             = ([Read path], Returned (failure, d)))
  /\ (forall remote s,
        c [] (Read path) = (Some remote, None) ->
        (forall data, c [Read path] (Write path data) = (s, Some e)) ->
        exists data,
          exec identityEntityAliasUpdate c d
          = ([Read path; Write path data], Returned (failure, d))).
Proof.
  intros Hmeta path failure. split.
  - intros r Hc. unfold identityEntityAliasUpdate. hstep.
    fold path. rewrite Hc. reflexivity.
  - intros remote s Hc Hw. eexists.
    unfold identityEntityAliasUpdate. hstep. fold path. rewrite Hc. hstep.
    do 3 (rewrite overlayIfOk_eq; hstep). rewrite Hmeta. hstep.
    cbn [app]. rewrite Hw. reflexivity.
Qed.

Lemma alias_update_errors_example :
  exec identityEntityAliasUpdate (failing "sealed") (aliasData "a1" ∅)
  = ([Read "/identity/entity-alias/id/a1"],
     Returned (Some ("error updating IdentityEntityAlias " ++ dquote ++ "a1"
                       ++ dquote ++ ": sealed"), aliasData "a1" ∅)).
Proof.
  destruct (alias_update_errors (failing "sealed") (aliasData "a1" ∅) ∅ "sealed")
    as [Hread _]; [reflexivity|].
  rewrite (Hread None); reflexivity.
Defined.



(** ** Deleting an alias and checking that it exists *)

(** X18.  Delete and Exists of an alias with a stored id make one request
    each, on the id path, and never change the resource data (Delete does
    not clear the id itself).  Delete succeeds exactly when the remote delete
    reports no error.  Exists reports an error exactly when the read does,
    and answers [false] only when the read returns nothing without an error:
    on a failed read it answers [true]. *)
Theorem alias_delete_exists (c : client) (d : ResourceData) :
  Id d <> EmptyString ->
  let path := identityEntityAliasIDPath (Id d) in
  (exists r,
      exec identityEntityAliasDelete c d = ([Delete path], Returned (r, d))
      /\ (r = None <-> snd (c [] (Delete path)) = None))
  /\ (exists b r,
        exec identityEntityAliasExists c d = ([Read path], Returned ((b, r), d))
        /\ (r = None <-> snd (c [] (Read path)) = None)
        /\ (b = false <-> c [] (Read path) = (None, None))).
Proof.
  intros Hid path. split.
  - unfold identityEntityAliasDelete. hstep. fold path.
    destruct (c [] (Delete path)) as [s [e|]]; eexists;
      (split; [reflexivity|]); cbn [snd]; split; easy.
  - unfold identityEntityAliasExists. hstep.
    destruct (Id d) as [|a id] eqn:Eid; [congruence|].
    cbn [String.length Nat.eqb]. hstep. fold path.
    destruct (c [] (Read path)) as [[s|] [e|]]; eexists _, _;
      (split; [reflexivity|]); cbn [snd]; split; try easy; split; easy.
Qed.

Lemma alias_delete_exists_example :
  exec identityEntityAliasExists (failing "sealed") (aliasData "a1" ∅)
  = ([Read "/identity/entity-alias/id/a1"],
     Returned ((true, Some ("error checking if IdentityEntityAlias " ++ dquote
                              ++ "a1" ++ dquote ++ " exists: sealed")),
               aliasData "a1" ∅)).
Proof.
  destruct (alias_delete_exists (failing "sealed") (aliasData "a1" ∅))
    as [_ (b & r & E & _ & _)]; [discriminate|].
  rewrite E. vm_compute in E. injection E as <- <-. reflexivity.
Defined.

(** ** Defaults of the role schema *)

Lemma fitsSchema_lookup (sch : list (string * Schema))
    (config : gmap string value) (k : string) (v : value) :
  fitsSchema sch config = true -> config !! k = Some v ->
  exists s, lookupSchema sch k = Some s /\ hasType (Type_ s) v = true.
Proof.
  unfold fitsSchema. rewrite forallb_forall. intros Hall Hk.
  specialize (Hall (k, v)). cbn [fst snd] in Hall.
  destruct (lookupSchema sch k) as [s|].
  - exists s. split; [reflexivity|]. apply Hall.
    apply list_elem_of_In, elem_of_map_to_list. exact Hk.
  - discriminate Hall. apply list_elem_of_In, elem_of_map_to_list. exact Hk.
Qed.

Lemma planned_role_ttl (id : string) (config : gmap string value) (k : string) :
  fitsSchema terraformCloudSecretBackendRoleSchema config = true ->
  In k ["max_ttl"; "ttl"] ->
  fields (planned terraformCloudSecretBackendRoleSchema id config) !! k
  = Some (match config !! k with Some v => v | None => VInt 0 end).
Proof.
  intros Hfit Hk.
  assert (lookupSchema terraformCloudSecretBackendRoleSchema k
          = Some (attr TypeInt false true false [] (Some (VInt 0)))) as Hs
    by (cbn [In] in Hk; destruct Hk as [<-|[<-|[]]]; reflexivity).
  rewrite (planned_lookup_int _ id config k _ 0 Hs eq_refl).
  destruct (config !! k) as [v|] eqn:E; [|reflexivity].
  destruct (fitsSchema_lookup _ _ _ _ Hfit E) as (s & Hs' & Ht).
  rewrite Hs in Hs'. injection Hs' as <-.
  destruct v; try discriminate Ht. reflexivity.
Qed.

(** X19.  Because the schema gives [ttl] and [max_ttl] the default 0, a
    Create or Update run on a configuration that fits the schema and has a
    name, an organization and a backend always sends both keys: the
    configured value, or 0 when the configuration has none. *)
Theorem role_apply_always_sends_ttl (c : client) (id : string)
    (config : gmap string value) (backend name : string) :
  fitsSchema terraformCloudSecretBackendRoleSchema config = true ->
  config !! "name" = Some (VStr name) ->
  is_Some (config !! "organization") ->
  config !! "backend" = Some (VStr backend) ->
  config !! "path" = None ->
  backend <> EmptyString ->
  exists payload trace o,
    run c [] (terraformCloudSecretBackendRoleApply id config)
    = (Write (terraformCloudSecretBackendRolePath backend name) payload :: trace, o)
    /\ payload !! "ttl"
       = Some (match config !! "ttl" with Some v => v | None => VInt 0 end)
    /\ payload !! "max_ttl"
       = Some (match config !! "max_ttl" with Some v => v | None => VInt 0 end).
Proof.
  intros Hfit Hname Horg Hbackend Hpath Hne.
  set (d := planned terraformCloudSecretBackendRoleSchema id config).
  assert (Get d "name" = VStr name) as HGet.
  { apply (planned_Get_string _ _ _ _ (attr TypeString true false true [] None));
      [reflexivity | reflexivity | exact Hname]. }
  assert (terraformCloudSecretBackendRoleGetBackend d = Ret (backend, d)) as HGb.
  { apply getBackend_of_fields; [exact Hne|]. left.
    apply (planned_lookup_string _ _ _ _
             (attr TypeString false true true ["path"] None));
      [reflexivity | exact Hbackend | exact Hne]. }
  unfold terraformCloudSecretBackendRoleApply.
  rewrite (role_validate config) by (try exact Horg; eexists; exact Hname).
  rewrite Hpath.
  rewrite (run_ioBind_Ret c (fun r => Handled (fst r) (snd r))).
  fold d. fold (exec terraformCloudSecretBackendRoleWrite c d).
  rewrite (role_write_run c d backend name HGet HGb Hne). cbv zeta.
  exists (rolePayload d).
  destruct (c [] _) as [s [e|]]; eexists _, _;
    (split; [reflexivity|]);
    rewrite !rolePayload_lookup;
    (split; (rewrite bool_decide_eq_true_2
               by (unfold rolePayloadKeys; cbn [In]; tauto));
     (apply planned_role_ttl; [exact Hfit | cbn [In]; tauto])).
Qed.

Lemma role_apply_always_sends_ttl_example :
  exists payload trace o,
    run nothing [] (terraformCloudSecretBackendRoleApply EmptyString
                      {[ "name" := VStr "admin"; "organization" := VStr "acme";
                         "backend" := VStr "tfc" ]})
    = (Write "tfc/role/admin" payload :: trace, o)
    /\ payload !! "ttl" = Some (VInt 0)
    /\ payload !! "max_ttl" = Some (VInt 0).
Proof.
  destruct (role_apply_always_sends_ttl nothing EmptyString
              {[ "name" := VStr "admin"; "organization" := VStr "acme";
                 "backend" := VStr "tfc" ]} "tfc" "admin")
    as (payload & trace & o & E & Httl & Hmax);
    [ vm_compute; reflexivity | reflexivity | eexists; reflexivity
    | reflexivity | reflexivity | discriminate |].
  exists payload, trace, o. rewrite E, Httl, Hmax. repeat split.
Defined.

(** ** Paths of the alias resource *)

(** X20.  The id path and the name path of two different keys are different,
    and an id path is never a name path, whatever the id and the name. *)
Theorem alias_paths_distinct (a b : string) :
  (identityEntityAliasIDPath a = identityEntityAliasIDPath b -> a = b)
  /\ (identityEntityAliasNamePath a = identityEntityAliasNamePath b -> a = b)
  /\ identityEntityAliasIDPath a <> identityEntityAliasNamePath b.
Proof.
  unfold identityEntityAliasIDPath, identityEntityAliasNamePath. repeat split.
  - intros E. do 2 apply append_inv_head in E. exact E.
  - intros E. do 2 apply append_inv_head in E. exact E.
  - intros E. apply append_inv_head in E. discriminate E.
Qed.

(** ** Failed reads *)

(** X21.  A read that fails never drops or alters a resource: for a role
    whose id parses, and for an alias, Read returns an error that names the
    id and carries the cause, and the resource data, the id included, stays
    as it was. *)
Theorem read_error_keeps_data (c : client) (d : ResourceData)
    (s : option Secret) (e : error) :
  (roleSplit (Id d) ->
   c [] (Read (Id d)) = (s, Some e) ->
   exec terraformCloudSecretBackendRoleRead c d
   = ([Read (Id d)],
      Returned (Some ("error reading role configuration for " ++ quote (Id d)
                        ++ ": " ++ e), d)))
  /\ (c [] (Read (identityEntityAliasIDPath (Id d))) = (s, Some e) ->
      exec identityEntityAliasRead c d
      = ([Read (identityEntityAliasIDPath (Id d))],
         Returned (Some ("error reading IdentityEntityAlias " ++ quote (Id d)
                           ++ ": " ++ e), d))).
Proof.
  split.
  - intros Hs Hc. unfold exec. rewrite role_read_run.
    destruct (role_id_parse_split (Id d))
      as [(b & n & -> & -> & _)|(_ & _ & Hno)]; [|contradiction].
    rewrite Hc. destruct s; reflexivity.
  - intros Hc. unfold identityEntityAliasRead. hstep. rewrite Hc. reflexivity.
Qed.

(** ** A role name that contains the separator *)

Lemma append_inv_tail (u u' s : string) : u ++ s = u' ++ s -> u = u'.
Proof.
  intros E.
  assert (String.length u = String.length u') as L.
  { apply (f_equal String.length) in E. rewrite !length_append in E. lia. }
  destruct (append_eq_append u s u' s E) as (z & -> & _); [lia|].
  rewrite length_append in L.
  destruct z; [symmetry; apply append_nil_r | cbn [String.length] in L; lia].
Qed.

(** X22.  A role name in which [/role/] is followed by at least one byte is
    not stored back: when Create succeeds for such a name (the backend and
    the name being non-empty and free of newlines), the [name] that the read
    after the write stores is not the name that was configured. *)
Theorem role_create_loses_split_name (c : client) (id : string)
    (f : gmap string value) (backend name : string)
    (s : option Secret) (secret : Secret) :
  f !! "name" = Some (VStr name) ->
  f !! "backend" = Some (VStr backend) ->
  Trim backend "/" <> EmptyString ->
  noNewline (Trim backend "/") = true -> noNewline name = true ->
  splitsAtRole ("/" ++ name) = true ->
  let d := roleData id f in
  let path := terraformCloudSecretBackendRolePath backend name in
  let w := Write path (rolePayload d) in
  c [] w = (s, None) ->
  c [w] (Read path) = (Some secret, None) ->
  exists d' name',
    exec terraformCloudSecretBackendRoleWrite c d
      = ([w; Read path], Returned (None, d'))
    /\ fields d' !! "name" = Some (VStr name')
    /\ name' <> name.
Proof.
  intros Hname Hbackend HB HnB HnN Hs d path w Hw Hr.
  assert (backend <> EmptyString) as Hne by (intros ->; apply HB; reflexivity).
  assert (Get d "name" = VStr name) as HGet
    by (unfold Get, d; cbn [fields roleData]; rewrite Hname; reflexivity).
  assert (terraformCloudSecretBackendRoleGetBackend d = Ret (backend, d)) as HGb
    by (apply getBackend_of_fields; [exact Hne | left; exact Hbackend]).
  assert (name <> EmptyString) as HN by (intros ->; discriminate Hs).
  rewrite (role_write_run c d backend name HGet HGb Hne). cbv zeta.
  fold path. fold w. rewrite Hw.
  change (SetId d path) with (roleData path f).
  destruct (role_id_parse_split path)
    as [(b' & n' & Pb & Pn & E & _)|(_ & _ & Hno)].
  - destruct (role_read_found_run c [w] path f b' n' secret Pb Pn Hr)
      as (d' & Erun & _ & Hn' & _).
    exists d', n'. rewrite Erun. cbn [fst snd].
    repeat split; [exact Hn'|].
    intros ->. unfold path, terraformCloudSecretBackendRolePath in E.
    rewrite <- !append_assoc in E.
    apply append_inv_tail in E. apply append_inv_tail in E.
    unfold path in Pb. rewrite <- E in Pb.
    apply role_path_round_trip_only_if in Pb as (_ & _ & _ & _ & Hfalse).
    rewrite Hs in Hfalse. discriminate Hfalse.
  - exfalso. apply Hno. exists (Trim backend "/"), name.
    repeat split; assumption.
Qed.

Lemma role_create_loses_split_name_example :
  exists d',
    exec terraformCloudSecretBackendRoleWrite roleServer
      (roleData EmptyString
         {[ "name" := VStr "a/role/b"; "backend" := VStr "tfc" ]})
    = ([Write "tfc/role/a/role/b" ∅; Read "tfc/role/a/role/b"],
       Returned (None, d'))
    /\ fields d' !! "name" = Some (VStr "b").
Proof.
  destruct (role_create_loses_split_name roleServer EmptyString
              {[ "name" := VStr "a/role/b"; "backend" := VStr "tfc" ]}
              "tfc" "a/role/b" None adminRole)
    as (d' & n' & E & Hn & _);
    [reflexivity | reflexivity | discriminate | reflexivity | reflexivity
    | reflexivity | reflexivity | reflexivity |].
  exists d'. rewrite E. split; [reflexivity|].
  vm_compute in E. injection E as <-. reflexivity.
Defined.

Lemma read_error_keeps_data_example :
  exec identityEntityAliasRead (failing "sealed") (aliasData "a1" ∅)
  = ([Read "/identity/entity-alias/id/a1"],
     Returned (Some ("error reading IdentityEntityAlias " ++ dquote ++ "a1"
                       ++ dquote ++ ": sealed"), aliasData "a1" ∅)).
Proof.
  destruct (read_error_keeps_data (failing "sealed") (aliasData "a1" ∅)
              None "sealed") as [_ H].
  rewrite H; reflexivity.
Defined.
